(** * Financial engine (financial-engine.ts): shallow embedding and properties

    The engine converts one annual reference rate (CDI) into per-investment
    yield, two regressive withholding taxes (IOF, IR) and a month-indexed
    wealth projection.

    Number model.  A JavaScript [number] holding money or a rate is a real
    ([R]); a [number] holding a count (calendar days, business days,
    installments, month indices) is an integer ([Z]).  Rounding error of the
    IEEE doubles is therefore outside the model: every equation below is an
    equation of exact arithmetic.  The one exception is module [Binary64],
    which follows the round trip of the rate conversions through binary64
    rounding.

    Date model.  A [Date] is its time value, the milliseconds since the epoch
    ([Z]).  The local-time accessors ([getFullYear], [getMonth], [setHours],
    [setMonth]) are those of ECMA-262 in a zone of offset zero without
    daylight saving: dates are naive calendar dates. *)

From Stdlib Require Import ZArith List Bool String Lia.
From Stdlib Require Import Reals Lra R_Ifp.
Import ListNotations.

Local Open Scope Z_scope.

(* ================================================================== *)
(** ** The host runtime: [Math] *)
(* ================================================================== *)

Module JSMath.

(** [Math.floor] of a real, as an integer. *)
Definition floor (x : R) : Z := Int_part x.

(** [Math.round]: the nearest integer, ties towards +infinity. *)
Definition round (x : R) : Z := Int_part (x + / 2)%R.

(** The value standing for a result JavaScript reports as [NaN] or as an
    infinity.  The model is faithful where the program's result is finite;
    where it is not (a negative base with a fractional exponent, that is a
    reference rate below -100%), the program has no numeric result and a
    statement about this value says nothing of it. *)
Definition non_finite : R := 0%R.

(** [Math.pow x y].  An exponent of zero gives 1 whatever the base; a
    positive base is the real power; a zero base gives 0 for a positive
    exponent; a negative base is defined for an integer exponent only. *)
Definition pow (x y : R) : R :=
  if Req_EM_T y 0 then 1%R
  else if Rlt_dec 0 x then Rpower x y
  else if Req_EM_T x 0 then
    (if Rlt_dec 0 y then 0%R else non_finite)
  else if Req_EM_T y (IZR (Int_part y)) then powerRZ x (Int_part y)
  else non_finite.

End JSMath.

(* ================================================================== *)
(** ** The host runtime: [Date] *)
(* ================================================================== *)

Module JSDate.

(** A date is its time value in milliseconds. *)
Definition Date : Type := Z.

Definition msPerDay : Z := 1000 * 60 * 60 * 24.

(** Day number and time within the day (ECMA-262 [Day], [TimeWithinDay]). *)
Definition Day (t : Date) : Z := t / msPerDay.
Definition TimeWithinDay (t : Date) : Z := t mod msPerDay.

Definition getTime (t : Date) : Z := t.

(** [d.setHours(0, 0, 0, 0)]: midnight of the same day. *)
Definition setHoursZero (t : Date) : Date := Day t * msPerDay.

(** Day number of a civil date, months counted 1..12 (proleptic Gregorian
    calendar, day 0 = 1970-01-01). *)
Definition days_from_civil (y m d : Z) : Z :=
  let y' := if m <=? 2 then y - 1 else y in
  let era := y' / 400 in
  let yoe := y' - era * 400 in
  let mp := if 2 <? m then m - 3 else m + 9 in
  let doy := (153 * mp + 2) / 5 + d - 1 in
  let doe := yoe * 365 + yoe / 4 - yoe / 100 + doy in
  era * 146097 + doe - 719468.

(** Civil date (year, month 1..12, day of month) of a day number. *)
Definition civil_from_days (z : Z) : Z * Z * Z :=
  let z' := z + 719468 in
  let era := z' / 146097 in
  let doe := z' - era * 146097 in
  let yoe := (doe - doe / 1460 + doe / 36524 - doe / 146096) / 365 in
  let doy := doe - (365 * yoe + yoe / 4 - yoe / 100) in
  let mp := (5 * doy + 2) / 153 in
  let d := doy - (153 * mp + 2) / 5 + 1 in
  let m := if mp <? 10 then mp + 3 else mp - 9 in
  let y := yoe + era * 400 in
  ((if m <=? 2 then y + 1 else y), m, d).

Definition getFullYear (t : Date) : Z :=
  let '(y, _, _) := civil_from_days (Day t) in y.

(** [getMonth] counts months from 0 (January) to 11 (December). *)
Definition getMonth (t : Date) : Z :=
  let '(_, m, _) := civil_from_days (Day t) in m - 1.

Definition getDate (t : Date) : Z :=
  let '(_, _, d) := civil_from_days (Day t) in d.

(** ECMA-262 [MakeDay]: the month may lie outside 0..11 and the day of the
    month outside the month; both carry over. *)
Definition MakeDay (year month date : Z) : Z :=
  let ym := year + month / 12 in
  let mn := month mod 12 in
  days_from_civil ym (mn + 1) 1 + date - 1.

(** [d.setMonth(m)]: same year, day of month and time of day. *)
Definition setMonth (t : Date) (m : Z) : Date :=
  MakeDay (getFullYear t) m (getDate t) * msPerDay + TimeWithinDay t.

(** [a < b] on dates compares the time values. *)
Definition ltb (a b : Date) : bool := a <? b.

(** [getDay]: day of the week, 0 = Sunday .. 6 = Saturday (ECMA-262
    [WeekDay]; day 0 was a Thursday). *)
Definition getDay (t : Date) : Z := (Day t + 4) mod 7.

(** [d.setDate(n)]: same year, month and time of day. *)
Definition setDate (t : Date) (n : Z) : Date :=
  MakeDay (getFullYear t) (getMonth t) n * msPerDay + TimeWithinDay t.

End JSDate.

Import JSDate.

(* ================================================================== *)
(** ** Types and interfaces *)
(* ================================================================== *)

Inductive InvestmentType : Type :=
  | CDB | LCI | LCA | Tesouro | Caixinha | Poupanca.

Record Investment : Type := mkInvestment {
  inv_id : string;
  inv_name : string;
  inv_type : InvestmentType;
  principal : R;
  cdiPercentage : R;          (* 100 for 100% of the CDI *)
  depositDate : Date;
  maturityDate : option Date;
  isExemptFromIR : bool
}.

Record Expense : Type := mkExpense {
  exp_id : string;
  description : string;
  totalAmount : R;
  installments : Z;
  currentInstallment : Z;
  monthlyAmount : R;
  startDate : Date;
  category : string;
  isPaid : bool;
  paymentDate : option Date
}.

(** The [month] label is rendered by the locale from the month and the year
    of [date]; the record keeps that pair (month index, year). *)
Record ProjectionResult : Type := mkProjectionResult {
  month : Z * Z;
  date : Date;
  totalInvestments : R;
  totalExpenses : R;
  netWorth : R;
  monthlyReturn : R
}.

Record InvestmentCalculation : Type := mkInvestmentCalculation {
  grossValue : R;
  grossReturn : R;
  iofAmount : R;
  irAmount : R;
  netValue : R;
  netReturn : R;
  effectiveRate : R;
  daysInvested : Z;   (* calendar days *)
  businessDays : Z;
  irRate : R;
  iofRate : R
}.

(** Market constants. *)
Definition BUSINESS_DAYS_PER_YEAR : R := 252%R.
Definition CALENDAR_DAYS_PER_YEAR : R := 365%R.

(* ================================================================== *)
(** ** CDIService: rate conversions *)
(* ================================================================== *)

Module CDIService.

Definition annualToDaily (annualRatePercent : R) : R :=
  let annualRate := (annualRatePercent / 100)%R in
  let dailyRate :=
    (JSMath.pow (1 + annualRate) (1 / BUSINESS_DAYS_PER_YEAR) - 1)%R in
  (dailyRate * 100)%R.

Definition dailyToAnnual (dailyRatePercent : R) : R :=
  let dailyRate := (dailyRatePercent / 100)%R in
  let annualRate :=
    (JSMath.pow (1 + dailyRate) BUSINESS_DAYS_PER_YEAR - 1)%R in
  (annualRate * 100)%R.

Definition annualToMonthly (annualRatePercent : R) : R :=
  let annualRate := (annualRatePercent / 100)%R in
  let monthlyRate := (JSMath.pow (1 + annualRate) (1 / 12) - 1)%R in
  (monthlyRate * 100)%R.

Definition CACHE_DURATION_MS : Z := 3600000. (* one hour *)

(** The two static fields of the cache; [None] is [null]. *)
Record RateCache : Type := mkRateCache {
  cachedCDI : option R;
  lastFetch : option Date
}.

(** What the network gives to one request: [fetch] or [response.json()]
    rejects, or a response arrives with its [ok] flag and the [valor] fields
    of the array it carries, each read as a number. *)
Inductive FetchResult : Type :=
  | FetchRejected
  | FetchResponded (ok : bool) (valores : list R).

(** [fetchCurrentCDI], with the cache, the clock and the network made
    explicit: [now] is the clock at the cache test, [net] the outcome of the
    request, [fetchedAt] the clock when the answer is stored.  Returns the
    rate and the cache afterwards. *)
Definition fetchCurrentCDI (cache : RateCache) (now : Date)
    (net : FetchResult) (fetchedAt : Date) : R * RateCache :=
  let hit :=
    match cachedCDI cache, lastFetch cache with
    | Some c, Some lf =>
        if getTime now - getTime lf <? CACHE_DURATION_MS then Some c
        else None
    | _, _ => None
    end in
  match hit with
  | Some c => (c, cache)
  | None =>
      match net with
      | FetchResponded true (annualRate :: _) =>
          (annualRate,
           {| cachedCDI := Some annualRate; lastFetch := Some fetchedAt |})
      | _ => (14.90%R, cache)
      end
  end.

End CDIService.

(* ================================================================== *)
(** ** The rate conversions in binary64 arithmetic *)
(* ================================================================== *)

(** Everywhere else a [number] is an exact real.  This module follows the
    two conversions of the round trip through IEEE 754 binary64, to see what
    rounding does to it: every operation returns a double nearest to its
    exact result.  Which of two nearest doubles a tie takes is left open, so
    a statement about every run covers the tie rule of the standard too.
    [Math.pow] is taken as rounded to nearest as well; the runs examined
    below call it on the base 1 only, where the exact result 1 is a double
    and every implementation returns it. *)

Module Binary64.

Definition pow2 (e : Z) : R := powerRZ 2 e.

(** The finite doubles: [m * 2^e] with a significand below [2^53] and an
    exponent in the range of the format. *)
Definition is_double (x : R) : Prop :=
  exists m e : Z,
    x = (IZR m * pow2 e)%R /\ Z.abs m < 2 ^ 53 /\ -1074 <= e <= 971.

(** [f] is a double nearest to the real [x]. *)
Definition rounds_to (x f : R) : Prop :=
  is_double f /\
  forall g, is_double g -> (Rabs (f - x) <= Rabs (g - x))%R.

(** [annualToDaily] step by step; [result] is a value the code can return
    for the double [annualRatePercent]. *)
Definition annualToDaily (annualRatePercent result : R) : Prop :=
  exists annualRate base exponent power dailyRate : R,
    rounds_to (annualRatePercent / 100)%R annualRate /\
    rounds_to (1 + annualRate)%R base /\
    rounds_to (1 / BUSINESS_DAYS_PER_YEAR)%R exponent /\
    rounds_to (JSMath.pow base exponent) power /\
    rounds_to (power - 1)%R dailyRate /\
    rounds_to (dailyRate * 100)%R result.

(** [dailyToAnnual] step by step. *)
Definition dailyToAnnual (dailyRatePercent result : R) : Prop :=
  exists dailyRate base power annualRate : R,
    rounds_to (dailyRatePercent / 100)%R dailyRate /\
    rounds_to (1 + dailyRate)%R base /\
    rounds_to (JSMath.pow base BUSINESS_DAYS_PER_YEAR) power /\
    rounds_to (power - 1)%R annualRate /\
    rounds_to (annualRate * 100)%R result.

(** [result] is within the relative tolerance [tol] of [expected]. *)
Definition within_tolerance (tol expected result : R) : Prop :=
  (Rabs (result - expected) <= tol * Rabs expected)%R.

(** A rate so small that [1 + rate / 100] rounds to 1: [100 * 2^-60], about
    [8.7e-17] percent. *)
Definition tiny_rate : R := (100 * pow2 (-60))%R.

End Binary64.

(* ================================================================== *)
(** ** BusinessDaysCalculator: day counts *)
(* ================================================================== *)

Module BusinessDaysCalculator.

(** Calendar days between two dates, both taken at midnight; never
    negative. *)
Definition getCalendarDays (startDate endDate : Date) : Z :=
  let start := setHoursZero startDate in
  let end_ := setHoursZero endDate in
  Z.max 0
    (JSMath.floor
       (IZR (getTime end_ - getTime start) / IZR (1000 * 60 * 60 * 24))%R).

(** Quick estimate of the business days, by the 252/365 ratio. *)
Definition estimateBusinessDays (calendarDays : Z) : Z :=
  JSMath.round
    (IZR calendarDays * (BUSINESS_DAYS_PER_YEAR / CALENDAR_DAYS_PER_YEAR))%R.

(** Fixed national holidays as (month, day), months counted from 0. *)
Definition FIXED_HOLIDAYS : list (Z * Z) :=
  [ (0, 1); (3, 21); (4, 1); (8, 7); (9, 12); (10, 2); (10, 15); (11, 25) ].

Definition isBusinessDay (date : Date) : bool :=
  let dayOfWeek := getDay date in
  if (dayOfWeek =? 0) || (dayOfWeek =? 6) then false
  else
    let month := getMonth date in
    let day := getDate date in
    let isHoliday :=
      existsb (fun h => (fst h =? month) && (snd h =? day)) FIXED_HOLIDAYS in
    negb isHoliday.

(** The [while (current < end)] loop of [getBusinessDays]; [None] when the
    fuel runs out before the loop ends. *)
Fixpoint getBusinessDays_loop (fuel : nat) (current end_ : Date) (count : Z)
    : option Z :=
  if JSDate.ltb current end_ then
    match fuel with
    | O => None
    | S fuel' =>
        let current := setDate current (getDate current + 1) in
        getBusinessDays_loop fuel' current end_
          (if isBusinessDay current then count + 1 else count)
    end
  else Some count.

Definition getBusinessDays (fuel : nat) (startDate endDate : Date)
    : option Z :=
  let current := setHoursZero startDate in
  let end_ := setHoursZero endDate in
  getBusinessDays_loop fuel current end_ 0.

End BusinessDaysCalculator.

(* ================================================================== *)
(** ** TaxCalculator: IR and IOF *)
(* ================================================================== *)

Module TaxCalculator.

(** A bracket of the regressive IR table; [maxDays = None] is the open
    last bracket ([Infinity]). *)
Record Bracket : Type := mkBracket { maxDays : option Z; rate : R }.

Definition IR_TABLE : list Bracket :=
  [ mkBracket (Some 180) 22.5%R;
    mkBracket (Some 360) 20.0%R;
    mkBracket (Some 720) 17.5%R;
    mkBracket None 15.0%R ].

(** Regressive IOF table; index = day - 1. *)
Definition IOF_TABLE : list R :=
  [ 96; 93; 90; 86; 83; 80; 76; 73; 70; 66;
    63; 60; 56; 53; 50; 46; 43; 40; 36; 33;
    30; 26; 23; 20; 16; 13; 10; 6; 3; 0 ]%R.

(** [calendarDays <= bracket.maxDays]. *)
Definition within (calendarDays : Z) (b : Bracket) : bool :=
  match maxDays b with
  | Some m => calendarDays <=? m
  | None => true
  end.

(** The loop of [getIRRate] over a table: first bracket that holds the day
    count, 15.0 when none does. *)
Fixpoint getIRRate_from (table : list Bracket) (calendarDays : Z) : R :=
  match table with
  | [] => 15.0%R
  | bracket :: rest =>
      if within calendarDays bracket then rate bracket
      else getIRRate_from rest calendarDays
  end.

Definition getIRRate (calendarDays : Z) : R :=
  getIRRate_from IR_TABLE calendarDays.

(** The table is read at [calendarDays - 1]; the two guards keep that index
    within the table, so the default of [nth] is never returned. *)
Definition getIOFRate (calendarDays : Z) : R :=
  if calendarDays <=? 0 then 96%R
  else if 30 <? calendarDays then 0%R
  else nth (Z.to_nat (calendarDays - 1)) IOF_TABLE JSMath.non_finite.

Definition calculateIOF (grossReturn : R) (calendarDays : Z) : R :=
  if Rle_dec grossReturn 0 then 0%R
  else
    let rate := getIOFRate calendarDays in
    (grossReturn * (rate / 100))%R.

Definition calculateIR (grossReturn iofAmount : R) (calendarDays : Z) : R :=
  let baseIR := (grossReturn - iofAmount)%R in
  if Rle_dec baseIR 0 then 0%R
  else
    let rate := getIRRate calendarDays in
    (baseIR * (rate / 100))%R.

End TaxCalculator.

(* ================================================================== *)
(** ** InvestmentCalculator *)
(* ================================================================== *)

Module InvestmentCalculator.

Definition calculate (investment : Investment) (currentDate : Date)
    (cdiAnnualRate : R) : InvestmentCalculation :=
  let depositDate := depositDate investment in
  let calendarDays :=
    BusinessDaysCalculator.getCalendarDays depositDate currentDate in
  let businessDays :=
    BusinessDaysCalculator.estimateBusinessDays calendarDays in
  let cdiDailyRate := (CDIService.annualToDaily cdiAnnualRate / 100)%R in
  let effectiveDailyRate :=
    (cdiDailyRate * (cdiPercentage investment / 100))%R in
  let grossMultiplier :=
    JSMath.pow (1 + effectiveDailyRate) (IZR businessDays) in
  let grossValue := (principal investment * grossMultiplier)%R in
  let grossReturn := (grossValue - principal investment)%R in
  let '(iofRate, iofAmount, irRate, irAmount) :=
    if negb (isExemptFromIR investment) then
      let iofRate := TaxCalculator.getIOFRate calendarDays in
      let iofAmount := TaxCalculator.calculateIOF grossReturn calendarDays in
      let irRate := TaxCalculator.getIRRate calendarDays in
      let irAmount :=
        TaxCalculator.calculateIR grossReturn iofAmount calendarDays in
      (iofRate, iofAmount, irRate, irAmount)
    else (0%R, 0%R, 0%R, 0%R) in
  let netValue := (grossValue - iofAmount - irAmount)%R in
  let netReturn := (netValue - principal investment)%R in
  let effectiveRate :=
    if 0 <? calendarDays then
      ((JSMath.pow (netValue / principal investment)
          (CALENDAR_DAYS_PER_YEAR / IZR calendarDays) - 1) * 100)%R
    else 0%R in
  {| grossValue := grossValue;
     grossReturn := grossReturn;
     iofAmount := iofAmount;
     irAmount := irAmount;
     netValue := netValue;
     netReturn := netReturn;
     effectiveRate := effectiveRate;
     daysInvested := calendarDays;
     businessDays := businessDays;
     irRate := irRate;
     iofRate := iofRate |}.

Definition projectFutureValue (investment : Investment) (targetDate : Date)
    (cdiAnnualRate : R) : InvestmentCalculation :=
  calculate investment targetDate cdiAnnualRate.

End InvestmentCalculator.

(* ================================================================== *)
(** ** ExpenseManager *)
(* ================================================================== *)

Module ExpenseManager.

Definition getMonthsDifference (startDate endDate : Date) : Z :=
  (getFullYear endDate - getFullYear startDate) * 12
  + (getMonth endDate - getMonth startDate).

(** The callback of the [reduce] in [getMonthlyExpenses]: the running total
    after one more expense. *)
Definition monthlyExpenses_step (targetDate : Date) (total : R)
    (expense : Expense) : R :=
  if isPaid expense then total
  else
    let deferred :=
      match paymentDate expense with
      | Some paymentDate => JSDate.ltb targetDate paymentDate
      | None => false
      end in
    if deferred then total
    else
      let startDate := startDate expense in
      let monthsDiff := getMonthsDifference startDate targetDate in
      if (0 <=? monthsDiff) && (monthsDiff <? installments expense)
      then (total + monthlyAmount expense)%R
      else total.

Definition getMonthlyExpenses (expenses : list Expense) (targetDate : Date)
    : R :=
  fold_left (monthlyExpenses_step targetDate) expenses 0%R.

Definition getTotalPendingExpenses (expenses : list Expense) : R :=
  fold_left
    (fun total expense =>
       if isPaid expense then total
       else
         let remainingInstallments :=
           installments expense - currentInstallment expense + 1 in
         (total
          + monthlyAmount expense * IZR (Z.max 0 remainingInstallments))%R)
    expenses 0%R.

Definition getRemainingInstallments (expense : Expense) (targetDate : Date)
    : Z :=
  if isPaid expense then 0
  else
    let startDate := startDate expense in
    let monthsDiff := getMonthsDifference startDate targetDate in
    if monthsDiff <? 0 then installments expense
    else if installments expense <=? monthsDiff then 0
    else installments expense - monthsDiff.

(** What one expense adds to the pending total. *)
Definition pendingOf (e : Expense) : R := getTotalPendingExpenses [e].

End ExpenseManager.

(* ================================================================== *)
(** ** FinancialEngine: the projection *)
(* ================================================================== *)

Module FinancialEngine.

(** The integers [lo, lo+1, ..., lo+n-1]: the values a counting [for] loop
    runs through. *)
Definition counting (lo : Z) (n : nat) : list Z :=
  map (fun k => lo + Z.of_nat k) (seq 0 n).

(** The variables the outer loop of [projectWealth] carries from one
    iteration to the next. *)
Record LoopState : Type := mkLoopState {
  results : list ProjectionResult;
  accumulatedWealth : R;
  totalAccumulatedExpenses : R
}.

(** Net value of all investments at a date (the first [reduce] of the loop
    body). *)
Definition investmentsValueAt (investments : list Investment)
    (targetDate : Date) (cdiAnnualRate : R) : R :=
  fold_left
    (fun sum inv =>
       let calc :=
         InvestmentCalculator.calculate inv targetDate cdiAnnualRate in
       (sum + netValue calc)%R)
    investments 0%R.

(** Monthly savings with compound return up to month [i] (the inner
    loop, [j] from 1 to [i]). *)
Definition accumulatedSavingsAt (monthlySavings monthlyRate : R) (i : Z)
    : R :=
  fold_left
    (fun accumulatedSavings j =>
       let monthsOfReturn := i - j in
       (accumulatedSavings
        + monthlySavings
          * JSMath.pow (1 + monthlyRate) (IZR monthsOfReturn))%R)
    (counting 1 (Z.to_nat i)) 0%R.

(** [previousMonth?.totalInvestments ?? (sum of the principals)]. *)
Definition previousTotalOf (previousMonth : option ProjectionResult)
    (investments : list Investment) : R :=
  match previousMonth with
  | Some p => totalInvestments p
  | None =>
      fold_left (fun sum inv => (sum + principal inv)%R) investments 0%R
  end.

(** The date of month index [i]: a copy of [startDate] moved by
    [setMonth (getMonth () + i)]. *)
Definition targetDateAt (startDate : Date) (i : Z) : Date :=
  setMonth startDate (getMonth startDate + i).

(** One iteration of the outer loop, for month index [i]. *)
Definition projectWealth_body (investments : list Investment)
    (expenses : list Expense) (startDate : Date) (cdiAnnualRate : R)
    (monthlySavings monthlyRate : R) (st : LoopState) (i : Z) : LoopState :=
  let targetDate := targetDateAt startDate i in
  let totalInvestments :=
    investmentsValueAt investments targetDate cdiAnnualRate in
  let accumulatedSavings :=
    accumulatedSavingsAt monthlySavings monthlyRate i in
  let monthlyExpenses :=
    ExpenseManager.getMonthlyExpenses expenses targetDate in
  let totalAccumulatedExpenses :=
    (totalAccumulatedExpenses st + monthlyExpenses)%R in
  let totalBruto := (totalInvestments + accumulatedSavings)%R in
  let accumulatedWealth := (totalBruto - totalAccumulatedExpenses)%R in
  let previousMonth :=
    if 0 <? i then nth_error (results st) (Z.to_nat (i - 1)) else None in
  let previousTotal := previousTotalOf previousMonth investments in
  let monthlyReturn :=
    if 0 <? i
    then (totalInvestments - previousTotal
          + monthlySavings * monthlyRate)%R
    else 0%R in
  {| results :=
       results st ++
       [ {| month := (getMonth targetDate, getFullYear targetDate);
            date := targetDate;
            totalInvestments := accumulatedWealth;
            totalExpenses := monthlyExpenses;
            netWorth := accumulatedWealth;
            monthlyReturn := Rmax 0 monthlyReturn |} ];
     accumulatedWealth := accumulatedWealth;
     totalAccumulatedExpenses := totalAccumulatedExpenses |}.

(** [projectWealth]: the loop runs for [i = 0, 1, ..., months] and returns
    the points pushed.  [startDate] is the clock reading [new Date()]. *)
Definition projectWealth_loop (startDate : Date)
    (investments : list Investment) (expenses : list Expense) (months : Z)
    (cdiAnnualRate : R) (monthlySavings : R) : LoopState :=
  let monthlyRate :=
    (CDIService.annualToMonthly cdiAnnualRate / 100)%R in
  fold_left
    (projectWealth_body investments expenses startDate cdiAnnualRate
       monthlySavings monthlyRate)
    (counting 0 (Z.to_nat (months + 1)))
    {| results := [];
       accumulatedWealth := 0%R;
       totalAccumulatedExpenses := 0%R |}.

Definition projectWealth (startDate : Date)
    (investments : list Investment) (expenses : list Expense) (months : Z)
    (cdiAnnualRate : R) (monthlySavings : R) : list ProjectionResult :=
  results
    (projectWealth_loop startDate investments expenses months
       cdiAnnualRate monthlySavings).

End FinancialEngine.

(* ================================================================== *)
(** ** The projection, point by point *)
(* ================================================================== *)

(** What the loop of [projectWealth] leaves at each month index, written
    without the loop state.  The lemmas of the last part prove that the loop
    computes exactly these points. *)

Module Projection.

Import FinancialEngine.

Section Inputs.

Variable startDate : Date.
Variable investments : list Investment.
Variable expenses : list Expense.
Variable cdiAnnualRate : R.
Variable monthlySavings : R.

Definition monthlyRate : R :=
  (CDIService.annualToMonthly cdiAnnualRate / 100)%R.

(** Expenses charged over the first [n] month indices, [0 .. n-1]. *)
Definition cumulativeExpenses (n : nat) : R :=
  fold_left
    (fun total k =>
       (total
        + ExpenseManager.getMonthlyExpenses expenses
            (targetDateAt startDate k))%R)
    (counting 0 n) 0%R.

(** Investments at the date of month [i], plus the savings accumulated by
    then, less every expense charged up to and including month [i]. *)
Definition wealthAt (i : Z) : R :=
  (investmentsValueAt investments (targetDateAt startDate i) cdiAnnualRate
   + accumulatedSavingsAt monthlySavings monthlyRate i
   - cumulativeExpenses (Z.to_nat (i + 1)))%R.

Definition pointAt (i : Z) : ProjectionResult :=
  let targetDate := targetDateAt startDate i in
  {| month := (getMonth targetDate, getFullYear targetDate);
     date := targetDate;
     totalInvestments := wealthAt i;
     totalExpenses := ExpenseManager.getMonthlyExpenses expenses targetDate;
     netWorth := wealthAt i;
     monthlyReturn :=
       Rmax 0
         (if 0 <? i
          then (investmentsValueAt investments targetDate cdiAnnualRate
                - wealthAt (i - 1) + monthlySavings * monthlyRate)%R
          else 0%R) |}.

End Inputs.

End Projection.

(* ================================================================== *)
(** ** Counting business days *)
(* ================================================================== *)

(** The number of business days among the [n] days that follow day number
    [day]: what the loop of [getBusinessDays] counts, written without the
    loop. *)
Definition businessDaysAfter (day : Z) (n : nat) : Z :=
  Z.of_nat
    (List.length
       (filter (fun k => BusinessDaysCalculator.isBusinessDay (k * msPerDay))
          (FinancialEngine.counting (day + 1) n))).

(** Monday to Friday, by day number. *)
Definition isWeekday (day : Z) : bool :=
  negb (((day + 4) mod 7 =? 0) || ((day + 4) mod 7 =? 6)).

(* ================================================================== *)
(** ** WealthProjection: the figures shown with a projection *)
(* ================================================================== *)

Module WealthProjection.

(** [periodType === 'years' ? periodValue * 12 : periodValue]. *)
Definition totalMonths (years : bool) (periodValue : Z) : Z :=
  if years then periodValue * 12 else periodValue.

(** [projection[k]?.totalInvestments || 0]. *)
Definition valueAt (projection : list ProjectionResult) (k : nat) : R :=
  match nth_error projection k with
  | Some p => if Req_EM_T (totalInvestments p) 0 then 0%R
              else totalInvestments p
  | None => 0%R
  end.

Definition finalValue (projection : list ProjectionResult) : R :=
  valueAt projection (List.length projection - 1).

Definition initialValue (projection : list ProjectionResult) : R :=
  valueAt projection 0.

Definition totalGrowth (projection : list ProjectionResult) : R :=
  (finalValue projection - initialValue projection)%R.

Definition totalReturns (projection : list ProjectionResult) : R :=
  fold_left (fun sum p => (sum + monthlyReturn p)%R) projection 0%R.

Definition totalExpensesInPeriod (projection : list ProjectionResult) : R :=
  fold_left (fun sum p => (sum + totalExpenses p)%R) projection 0%R.

End WealthProjection.

(* ================================================================== *)
(** ** Sample inputs *)
(* ================================================================== *)

Module Scenario.

(** Midnight of the [n]-th day after the epoch. *)
Definition dayAt (n : Z) : Date := n * msPerDay.

(** A taxed position: 10000 at 100% of the CDI, deposited on day 0. *)
Definition cdb : Investment :=
  {| inv_id := "cdb-1"; inv_name := "CDB 100% CDI"; inv_type := CDB;
     principal := 10000%R; cdiPercentage := 100%R;
     depositDate := dayAt 0; maturityDate := None;
     isExemptFromIR := false |}.

(** The same position in an exempt instrument. *)
Definition lci : Investment :=
  {| inv_id := "lci-1"; inv_name := "LCI 100% CDI"; inv_type := LCI;
     principal := 10000%R; cdiPercentage := 100%R;
     depositDate := dayAt 0; maturityDate := None;
     isExemptFromIR := true |}.

(** The reference rate the provider falls back to. *)
Definition cdiAnnual : R := 14.90%R.

(** An obligation of 1200 in 12 installments starting on day 0
    (January 1970), neither paid nor deferred. *)
Definition loan : Expense :=
  {| exp_id := "exp-1"; description := "loan"; totalAmount := 1200%R;
     installments := 12; currentInstallment := 1;
     monthlyAmount := 100%R; startDate := dayAt 0;
     category := "other"; isPaid := false; paymentDate := None |}.

End Scenario.

(** Case analysis on a natural number bounded by a numeral in hypothesis
    [H]: one goal per value, each closed by [tac]. *)
Ltac each_index k H tac :=
  repeat (destruct k as [ | k]; [ tac | ]);
  exfalso; simpl in H; lia.

(* ================================================================== *)
(** * Properties *)
(* ================================================================== *)

(** ** Facts about the runtime model *)

Section RuntimeFacts.

Local Open Scope R_scope.

(** An exponent of zero gives 1, whatever the base. *)
Lemma pow_exponent_zero (x : R) : JSMath.pow x 0 = 1.
Proof.
  unfold JSMath.pow. destruct (Req_EM_T 0 0) as [_ | Hne]; [reflexivity | ].
  exfalso; apply Hne; reflexivity.
Qed.

(** On a positive base [Math.pow] is the real power. *)
Lemma pow_positive_base (x y : R) : 0 < x -> JSMath.pow x y = Rpower x y.
Proof.
  intro Hx. unfold JSMath.pow.
  destruct (Req_EM_T y 0) as [-> | _].
  - symmetry; apply Rpower_O; exact Hx.
  - destruct (Rlt_dec 0 x) as [_ | Hn]; [reflexivity | contradiction].
Qed.

(** Raising to [1/n] and then to [n] gives the base back. *)
Lemma pow_root_then_power (a n : R) :
  0 < a -> n <> 0 -> JSMath.pow (JSMath.pow a (1 / n)) n = a.
Proof.
  intros Ha Hn.
  rewrite (pow_positive_base a (1 / n) Ha).
  rewrite pow_positive_base by (unfold Rpower; apply exp_pos).
  rewrite Rpower_mult.
  replace (1 / n * n) with 1 by (field; exact Hn).
  apply Rpower_1; exact Ha.
Qed.

(** [Math.round] of a real between [z - 1/2] (included) and [z + 1/2]
    (excluded) is [z]. *)
Lemma round_spec (x : R) (z : Z) :
  IZR z - / 2 <= x < IZR z + / 2 -> JSMath.round x = z.
Proof.
  intros [Hlo Hhi]. unfold JSMath.round. symmetry.
  apply Int_part_spec. split; lra.
Qed.

Lemma round_IZR (z : Z) : JSMath.round (IZR z) = z.
Proof. apply round_spec. split; lra. Qed.

End RuntimeFacts.

(** [Day] is monotone: an earlier instant lies on the same or an earlier
    day. *)
Lemma Day_monotone (a b : Date) : a <= b -> Day a <= Day b.
Proof.
  intro H. unfold Day. apply Z.div_le_mono; [ | exact H].
  unfold msPerDay; lia.
Qed.

(** ** Day counts *)

Lemma getCalendarDays_nonneg (s e : Date) :
  0 <= BusinessDaysCalculator.getCalendarDays s e.
Proof. unfold BusinessDaysCalculator.getCalendarDays. lia. Qed.

(** [Math.floor] of a quotient of integers is the integer quotient. *)
Lemma floor_quotient (a b : Z) :
  0 < b -> JSMath.floor (IZR a / IZR b)%R = a / b.
Proof.
  intro Hb. unfold JSMath.floor. symmetry. apply Int_part_spec.
  pose proof (Z.div_mod a b ltac:(lia)) as Hdm.
  pose proof (Z.mod_pos_bound a b Hb) as [Hr0 Hr1].
  set (q := a / b) in *. set (r := a mod b) in *.
  assert (HbR : (0 < IZR b)%R) by (apply IZR_lt; exact Hb).
  assert (Ha : (IZR a = IZR b * IZR q + IZR r)%R).
  { rewrite <- mult_IZR, <- plus_IZR. f_equal. exact Hdm. }
  assert (Hx : (IZR a / IZR b = IZR q + IZR r / IZR b)%R).
  { rewrite Ha. field. lra. }
  assert (Hfrac : (0 <= IZR r / IZR b < 1)%R).
  { split.
    - apply Rmult_le_pos; [apply IZR_le; exact Hr0 | ].
      left; apply Rinv_0_lt_compat; exact HbR.
    - apply (Rmult_lt_reg_r (IZR b)); [exact HbR | ].
      replace (IZR r / IZR b * IZR b)%R with (IZR r) by (field; lra).
      rewrite Rmult_1_l. apply IZR_lt; exact Hr1. }
  rewrite Hx. split; lra.
Qed.

(** The calendar days are the difference of the day numbers, clamped. *)
Lemma getCalendarDays_days (s e : Date) :
  BusinessDaysCalculator.getCalendarDays s e = Z.max 0 (Day e - Day s).
Proof.
  unfold BusinessDaysCalculator.getCalendarDays, setHoursZero, getTime.
  f_equal.
  rewrite floor_quotient by lia.
  replace (Day e * msPerDay - Day s * msPerDay)
    with ((Day e - Day s) * msPerDay) by ring.
  change (1000 * 60 * 60 * 24) with msPerDay.
  apply Z.div_mul. unfold msPerDay; lia.
Qed.

Lemma getCalendarDays_not_after (s e : Date) :
  e <= s -> BusinessDaysCalculator.getCalendarDays s e = 0.
Proof.
  intro H. rewrite getCalendarDays_days.
  pose proof (Day_monotone e s H). lia.
Qed.

(** The estimate is integer arithmetic: [round (n * 252 / 365)] is the
    quotient of [504 n + 365] by [730]. *)
Lemma estimateBusinessDays_div (n : Z) :
  BusinessDaysCalculator.estimateBusinessDays n = (504 * n + 365) / 730.
Proof.
  unfold BusinessDaysCalculator.estimateBusinessDays,
    BUSINESS_DAYS_PER_YEAR, CALENDAR_DAYS_PER_YEAR.
  apply round_spec.
  pose proof (Z.div_mod (504 * n + 365) 730 ltac:(lia)) as Hdm.
  pose proof (Z.mod_pos_bound (504 * n + 365) 730 ltac:(lia)) as Hb.
  set (q := (504 * n + 365) / 730) in *.
  set (r := (504 * n + 365) mod 730) in *.
  assert (Hn : (IZR n * 504 + 365 = 730 * IZR q + IZR r)%R).
  { rewrite <- mult_IZR, <- !plus_IZR, <- mult_IZR, <- plus_IZR.
    f_equal. lia. }
  assert (Hr0 : (0 <= IZR r)%R) by (apply IZR_le; lia).
  assert (Hr1 : (IZR r <= 729)%R) by (apply IZR_le; lia).
  split; lra.
Qed.

Lemma estimateBusinessDays_zero :
  BusinessDaysCalculator.estimateBusinessDays 0 = 0.
Proof. rewrite estimateBusinessDays_div. reflexivity. Qed.

(** ** The tax tables *)

Section TaxTables.

Import TaxCalculator.
Local Open Scope R_scope.

(** Within 1..30 the rate is the table entry at [day - 1]. *)
Lemma getIOFRate_in_table (d : Z) :
  (1 <= d <= 30)%Z ->
  getIOFRate d = nth (Z.to_nat (d - 1)) IOF_TABLE JSMath.non_finite.
Proof.
  intro H. unfold getIOFRate.
  destruct (Z.leb_spec d 0); [lia | ].
  destruct (Z.ltb_spec 30 d); [lia | reflexivity].
Qed.

Lemma getIOFRate_nonpositive (d : Z) : (d <= 0)%Z -> getIOFRate d = 96.
Proof.
  intro H. unfold getIOFRate.
  destruct (Z.leb_spec d 0); [reflexivity | lia].
Qed.

Lemma getIOFRate_after_30 (d : Z) : (30 < d)%Z -> getIOFRate d = 0.
Proof.
  intro H. unfold getIOFRate.
  destruct (Z.leb_spec d 0); [lia | ].
  destruct (Z.ltb_spec 30 d); [reflexivity | lia].
Qed.

(** Every entry of the table lies between 0 and 96. *)
Lemma IOF_TABLE_bounds (k : nat) :
  (k < 30)%nat -> 0 <= nth k IOF_TABLE JSMath.non_finite <= 96.
Proof.
  intro H. unfold IOF_TABLE.
  each_index k H ltac:(simpl nth; lra).
Qed.

(** The table decreases strictly from each entry to the next. *)
Lemma IOF_TABLE_decreasing (k : nat) :
  (k < 29)%nat ->
  nth (S k) IOF_TABLE JSMath.non_finite < nth k IOF_TABLE JSMath.non_finite.
Proof.
  intro H. unfold IOF_TABLE.
  each_index k H ltac:(simpl nth; lra).
Qed.

Lemma getIOFRate_bounds (d : Z) : 0 <= getIOFRate d <= 96.
Proof.
  destruct (Z_le_gt_dec d 0) as [Hlo | Hlo].
  - rewrite getIOFRate_nonpositive by exact Hlo. lra.
  - destruct (Z_lt_le_dec 30 d) as [Hhi | Hhi].
    + rewrite getIOFRate_after_30 by exact Hhi. lra.
    + rewrite getIOFRate_in_table by lia.
      apply IOF_TABLE_bounds. lia.
Qed.

(** The IR rate is one of the four bracket rates, hence between 15 and
    22.5. *)
Lemma getIRRate_bounds (d : Z) : 15 <= getIRRate d <= 22.5.
Proof.
  unfold getIRRate, IR_TABLE, getIRRate_from, within; simpl maxDays;
    simpl rate.
  destruct (d <=? 180)%Z; [lra | ].
  destruct (d <=? 360)%Z; [lra | ].
  destruct (d <=? 720)%Z; lra.
Qed.

(** The four brackets, by their bounds. *)
Lemma getIRRate_brackets (d : Z) :
  getIRRate d =
    if (d <=? 180)%Z then 22.5
    else if (d <=? 360)%Z then 20.0
    else if (d <=? 720)%Z then 17.5
    else 15.0.
Proof. reflexivity. Qed.

(** IOF: nothing on a loss, between nothing and 96% of a gain. *)
Lemma calculateIOF_bounds (g : R) (d : Z) :
  0 <= g -> 0 <= calculateIOF g d <= 0.96 * g.
Proof.
  intro Hg. unfold calculateIOF.
  destruct (Rle_dec g 0) as [Hle | Hgt]; [lra | ].
  pose proof (getIOFRate_bounds d) as [H0 H96].
  assert (Hpos : 0 < g) by lra.
  split; [ | nra].
  apply Rmult_le_pos; lra.
Qed.

(** IR: nothing on a base that is not positive, else between nothing and
    22.5% of the base. *)
Lemma calculateIR_bounds (g iof : R) (d : Z) :
  0 <= calculateIR g iof d /\
  (0 <= g - iof -> calculateIR g iof d <= 0.225 * (g - iof)).
Proof.
  unfold calculateIR.
  pose proof (getIRRate_bounds d) as [H15 H225].
  destruct (Rle_dec (g - iof) 0) as [Hle | Hgt].
  - split; [lra | intro; lra].
  - split; [apply Rmult_le_pos; lra | intros _; nra].
Qed.

End TaxTables.

(** ** One position at one date *)

Section Calculate.

Import TaxCalculator InvestmentCalculator.
Local Open Scope R_scope.

(** [calculate] with the tax branch written per field. *)
Lemma calculate_fields (inv : Investment) (currentDate : Date) (cdi : R) :
  calculate inv currentDate cdi =
    let d :=
      BusinessDaysCalculator.getCalendarDays (depositDate inv) currentDate in
    let bd := BusinessDaysCalculator.estimateBusinessDays d in
    let gv :=
      principal inv *
      JSMath.pow
        (1 + CDIService.annualToDaily cdi / 100 * (cdiPercentage inv / 100))
        (IZR bd) in
    let gr := gv - principal inv in
    let iof := if isExemptFromIR inv then 0 else calculateIOF gr d in
    let ir := if isExemptFromIR inv then 0 else calculateIR gr iof d in
    {| grossValue := gv;
       grossReturn := gr;
       iofAmount := iof;
       irAmount := ir;
       netValue := gv - iof - ir;
       netReturn := gv - iof - ir - principal inv;
       effectiveRate :=
         if (0 <? d)%Z
         then (JSMath.pow ((gv - iof - ir) / principal inv)
                 (CALENDAR_DAYS_PER_YEAR / IZR d) - 1) * 100
         else 0;
       daysInvested := d;
       businessDays := bd;
       irRate := if isExemptFromIR inv then 0 else getIRRate d;
       iofRate := if isExemptFromIR inv then 0 else getIOFRate d |}.
Proof.
  unfold calculate. destruct (isExemptFromIR inv); reflexivity.
Qed.

(** Compounding the daily rate of a position at 100% of the CDI over 252
    business days gives the annual rate back. *)
Lemma gross_multiplier_full_year (cdi : R) :
  -100 < cdi ->
  JSMath.pow (1 + CDIService.annualToDaily cdi / 100 * (100 / 100)) 252
  = 1 + cdi / 100.
Proof.
  intro H. unfold CDIService.annualToDaily, BUSINESS_DAYS_PER_YEAR.
  replace (1 + (JSMath.pow (1 + cdi / 100) (1 / 252) - 1) * 100 / 100
               * (100 / 100))
    with (JSMath.pow (1 + cdi / 100) (1 / 252)) by field.
  apply pow_root_then_power; lra.
Qed.

(** No IOF is withheld from day 31 on. *)
Lemma calculateIOF_after_30 (g : R) (d : Z) :
  (30 < d)%Z -> calculateIOF g d = 0.
Proof.
  intro H. unfold calculateIOF.
  destruct (Rle_dec g 0); [reflexivity | ].
  rewrite getIOFRate_after_30 by exact H. lra.
Qed.

(** The sample position after 365 calendar days: 252 business days, gross
    value 11490. *)
Lemma cdb_one_year_days :
  BusinessDaysCalculator.getCalendarDays
    (depositDate Scenario.cdb) (Scenario.dayAt 365) = 365%Z.
Proof. rewrite getCalendarDays_days. reflexivity. Qed.

Lemma cdb_one_year_gross :
  grossValue (calculate Scenario.cdb (Scenario.dayAt 365) Scenario.cdiAnnual)
  = 11490.
Proof.
  rewrite calculate_fields. cbv zeta. cbn [grossValue].
  rewrite cdb_one_year_days, estimateBusinessDays_div.
  change ((504 * 365 + 365) / 730)%Z with 252%Z.
  change (cdiPercentage Scenario.cdb) with 100.
  change (principal Scenario.cdb) with 10000.
  rewrite gross_multiplier_full_year by (unfold Scenario.cdiAnnual; lra).
  unfold Scenario.cdiAnnual. lra.
Qed.

End Calculate.

(** ** Rate conversions *)

Section RateConversion.

Local Open Scope R_scope.

(** The round trip holds for every annual rate above -100%. *)
Lemma daily_annual_inverse (r : R) :
  -100 < r -> CDIService.dailyToAnnual (CDIService.annualToDaily r) = r.
Proof.
  intro H.
  unfold CDIService.dailyToAnnual, CDIService.annualToDaily,
    BUSINESS_DAYS_PER_YEAR.
  replace (1 + (JSMath.pow (1 + r / 100) (1 / 252) - 1) * 100 / 100)
    with (JSMath.pow (1 + r / 100) (1 / 252)) by field.
  rewrite pow_root_then_power by lra.
  field.
Qed.

(** The other round trip, from a daily rate above -100%. *)
Lemma annual_daily_inverse (d : R) :
  -100 < d -> CDIService.annualToDaily (CDIService.dailyToAnnual d) = d.
Proof.
  intro H.
  unfold CDIService.dailyToAnnual, CDIService.annualToDaily,
    BUSINESS_DAYS_PER_YEAR.
  replace (1 + (JSMath.pow (1 + d / 100) 252 - 1) * 100 / 100)
    with (JSMath.pow (1 + d / 100) 252) by field.
  rewrite (pow_positive_base (1 + d / 100)) by lra.
  rewrite pow_positive_base by (unfold Rpower; apply exp_pos).
  rewrite Rpower_mult.
  replace (252 * (1 / 252)) with 1 by field.
  rewrite Rpower_1 by lra.
  field.
Qed.

(** C8, amended.  For every annual rate [r] strictly between -50 and 100
    percent, converting it to the daily rate and back gives [r] exactly, in
    real arithmetic: the two conversions with exponent 252 are inverse to
    each other.  (No tolerance is stated for binary64 arithmetic, where the
    round trip loses rates close to 0.) *)
Theorem dailyToAnnual_annualToDaily (r : R) :
  -50 < r < 100 ->
  CDIService.dailyToAnnual (CDIService.annualToDaily r) = r.
Proof. intros [Hlo _]. apply daily_annual_inverse. lra. Qed.

Lemma dailyToAnnual_annualToDaily_witness :
  -50 < 14.90 < 100 /\
  CDIService.dailyToAnnual (CDIService.annualToDaily 14.90) = 14.90.
Proof.
  assert (H : -50 < 14.90 < 100) by lra.
  split; [exact H | exact (dailyToAnnual_annualToDaily 14.90 H)].
Defined.

End RateConversion.

(** ** Properties of the tax tables *)

Section TaxProperties.

Import TaxCalculator.
Local Open Scope R_scope.

(** C5.  The IOF rate is 96 for every day count of 0 or less and 0 for every
    day count above 30; on days 1 to 30 it decreases strictly from one day to
    the next, from 96 on day 1 to 0 on day 30. *)
Theorem getIOFRate_shape :
  (forall d : Z, (d <= 0)%Z -> getIOFRate d = 96) /\
  (forall d : Z, (30 < d)%Z -> getIOFRate d = 0) /\
  getIOFRate 1 = 96 /\
  getIOFRate 30 = 0 /\
  (forall d : Z, (1 <= d < 30)%Z -> getIOFRate d > getIOFRate (d + 1)).
Proof.
  split; [exact getIOFRate_nonpositive | ].
  split; [exact getIOFRate_after_30 | ].
  split; [reflexivity | ].
  split; [reflexivity | ].
  intros d Hd.
  rewrite (getIOFRate_in_table d), (getIOFRate_in_table (d + 1)) by lia.
  replace (Z.to_nat (d + 1 - 1)) with (S (Z.to_nat (d - 1))) by lia.
  apply Rlt_gt, IOF_TABLE_decreasing. lia.
Qed.

Lemma getIOFRate_shape_witness :
  getIOFRate (-3) = 96 /\ getIOFRate 45 = 0 /\ getIOFRate 7 > getIOFRate 8.
Proof.
  destruct getIOFRate_shape as (Hlow & Hhigh & _ & _ & Hdec).
  split; [apply Hlow; lia | ].
  split; [apply Hhigh; lia | ].
  apply (Hdec 7%Z); lia.
Defined.

(** C6.  The IR brackets close on their upper bound: 22.5 at 180 days, 20.0
    at 181 and at 360, 17.5 at 361 and at 720, 15.0 at 721. *)
Theorem getIRRate_boundaries :
  getIRRate 180 = 22.5 /\ getIRRate 181 = 20.0 /\ getIRRate 360 = 20.0 /\
  getIRRate 361 = 17.5 /\ getIRRate 720 = 17.5 /\ getIRRate 721 = 15.0.
Proof. repeat split; reflexivity. Qed.

End TaxProperties.

(** ** Properties of one valuation *)

Section ValuationProperties.

Import TaxCalculator InvestmentCalculator.
Local Open Scope R_scope.

Lemma grossReturn_is_gain (inv : Investment) (currentDate : Date) (cdi : R) :
  grossReturn (calculate inv currentDate cdi)
  = grossValue (calculate inv currentDate cdi) - principal inv.
Proof. rewrite calculate_fields. reflexivity. Qed.

(** A taxed position valued 365 calendar days after the deposit: no IOF, IR
    at 17.5% of the gain, nothing on a loss. *)
Lemma calculate_at_365 (inv : Investment) (currentDate : Date) (cdi : R) :
  isExemptFromIR inv = false ->
  BusinessDaysCalculator.getCalendarDays (depositDate inv) currentDate
  = 365%Z ->
  let c := calculate inv currentDate cdi in
  iofRate c = 0 /\ iofAmount c = 0 /\ irRate c = 17.5 /\
  irAmount c = 0.175 * Rmax 0 (grossReturn c) /\
  netValue c = grossValue c - 0.175 * Rmax 0 (grossReturn c).
Proof.
  intros Hex Hd c. subst c. rewrite calculate_fields. cbv zeta.
  cbn [iofRate iofAmount irRate irAmount netValue grossValue grossReturn].
  rewrite Hex, Hd.
  set (gr := _ - principal inv).
  rewrite calculateIOF_after_30 by lia.
  assert (Hir : calculateIR gr 0 365 = 0.175 * Rmax 0 gr).
  { unfold calculateIR. rewrite getIRRate_brackets. cbn [Z.leb Z.compare
      Pos.compare Pos.compare_cont].
    destruct (Rle_dec (gr - 0) 0) as [Hle | Hgt].
    - rewrite Rmax_left by lra. lra.
    - rewrite Rmax_right by lra. lra. }
  rewrite Hir.
  repeat split; try reflexivity; lra.
Qed.

(** Counterexample to C2 as stated: at 365 calendar days the IR rate is
    17.5, not 15.0, and the sample position (10000 at 100% of a CDI of
    14.90%) nets 11229.25, not the 11266.50 that 15% would leave. *)
Lemma getIRRate_365_is_not_15 :
  getIRRate 365 <> 15.0 /\
  let c := calculate Scenario.cdb (Scenario.dayAt 365) Scenario.cdiAnnual in
  netValue c = 11229.25 /\
  netValue c <> grossValue c - 0.15 * grossReturn c.
Proof.
  split.
  - rewrite getIRRate_brackets. cbn [Z.leb Z.compare Pos.compare
      Pos.compare_cont]. lra.
  - intro c.
    destruct (calculate_at_365 Scenario.cdb (Scenario.dayAt 365)
                Scenario.cdiAnnual eq_refl cdb_one_year_days)
      as (_ & _ & _ & _ & Hnet).
    fold c in Hnet. rewrite Hnet. subst c.
    rewrite grossReturn_is_gain, cdb_one_year_gross.
    change (principal Scenario.cdb) with 10000.
    rewrite Rmax_right by lra.
    split; lra.
Qed.

(** C2, amended.  For a taxed position valued exactly 365 calendar days
    after the deposit the IR bracket is 17.5% ([getIRRate 365 = 17.5]: 365
    lies above 360 and not above 720); the IOF rate and amount are 0, and the
    net value is the gross value less 17.5% of the gross return when that is
    a gain (less nothing when it is not). *)
Theorem one_year_bracket (inv : Investment) (currentDate : Date) (cdi : R) :
  isExemptFromIR inv = false ->
  BusinessDaysCalculator.getCalendarDays (depositDate inv) currentDate
  = 365%Z ->
  let c := calculate inv currentDate cdi in
  getIRRate 365 = 17.5 /\ irRate c = 17.5 /\
  iofRate c = 0 /\ iofAmount c = 0 /\
  netValue c = grossValue c - 0.175 * Rmax 0 (grossReturn c) /\
  (0 <= grossReturn c ->
   netValue c = grossValue c - 0.175 * grossReturn c).
Proof.
  intros Hex Hd c.
  destruct (calculate_at_365 inv currentDate cdi Hex Hd)
    as (Hiofr & Hiof & Hirr & _ & Hnet).
  fold c in Hiofr, Hiof, Hirr, Hnet.
  split; [reflexivity | ].
  repeat split; try assumption.
  intro Hg. rewrite Hnet, Rmax_right by exact Hg. reflexivity.
Qed.

Lemma one_year_bracket_witness :
  let c := calculate Scenario.cdb (Scenario.dayAt 365) Scenario.cdiAnnual in
  irRate c = 17.5 /\ netValue c = grossValue c - 0.175 * grossReturn c.
Proof.
  intro c.
  destruct (one_year_bracket Scenario.cdb (Scenario.dayAt 365)
              Scenario.cdiAnnual eq_refl cdb_one_year_days)
    as (_ & Hirr & _ & _ & _ & Hnet).
  split; [exact Hirr | ].
  apply Hnet. subst c.
  rewrite grossReturn_is_gain, cdb_one_year_gross.
  change (principal Scenario.cdb) with 10000. lra.
Defined.

(** C3.  A valuation date before the deposit date gives 0 calendar days and
    0 business days, a gross value equal to the principal (no growth), no IOF
    and no IR, hence a net value equal to the principal and an effective rate
    of 0.  [calculate] is a total function: there is no failure case. *)
Theorem calculate_before_deposit
    (inv : Investment) (currentDate : Date) (cdi : R) :
  (currentDate < depositDate inv)%Z ->
  let c := calculate inv currentDate cdi in
  daysInvested c = 0%Z /\ businessDays c = 0%Z /\
  grossValue c = principal inv /\ grossReturn c = 0 /\
  iofAmount c = 0 /\ irAmount c = 0 /\
  netValue c = principal inv /\ netReturn c = 0 /\
  effectiveRate c = 0.
Proof.
  intros Hbefore c. subst c. rewrite calculate_fields. cbv zeta.
  cbn [daysInvested businessDays grossValue grossReturn iofAmount irAmount
       netValue netReturn effectiveRate].
  rewrite getCalendarDays_not_after by lia.
  rewrite estimateBusinessDays_zero, pow_exponent_zero.
  replace (principal inv * 1 - principal inv) with 0 by ring.
  assert (Hiof : calculateIOF 0 0 = 0).
  { unfold calculateIOF. destruct (Rle_dec 0 0); [reflexivity | lra]. }
  assert (Hir : calculateIR 0 0 0 = 0).
  { unfold calculateIR. destruct (Rle_dec (0 - 0) 0); [reflexivity | lra]. }
  destruct (isExemptFromIR inv);
    rewrite ?Hiof, ?Hir; cbn [Z.ltb Z.compare];
    repeat split; try reflexivity; ring.
Qed.

Lemma calculate_before_deposit_witness :
  let c :=
    calculate Scenario.cdb (Scenario.dayAt (-10)) Scenario.cdiAnnual in
  daysInvested c = 0%Z /\ grossValue c = 10000 /\ netValue c = 10000.
Proof.
  intro c.
  assert (Hbefore : (Scenario.dayAt (-10) < depositDate Scenario.cdb)%Z)
    by reflexivity.
  destruct (calculate_before_deposit Scenario.cdb (Scenario.dayAt (-10))
              Scenario.cdiAnnual Hbefore)
    as (Hd & _ & Hg & _ & _ & _ & Hn & _).
  repeat split; assumption.
Defined.

(** C7.  For a position whose exemption flag is set, both tax amounts and
    both tax rates are exactly 0, at every valuation date and reference
    rate. *)
Theorem exempt_pays_no_tax
    (inv : Investment) (currentDate : Date) (cdi : R) :
  isExemptFromIR inv = true ->
  let c := calculate inv currentDate cdi in
  iofAmount c = 0 /\ irAmount c = 0 /\ iofRate c = 0 /\ irRate c = 0.
Proof.
  intros Hex c. subst c. rewrite calculate_fields. cbv zeta.
  cbn [iofAmount irAmount iofRate irRate]. rewrite Hex.
  repeat split; reflexivity.
Qed.

Lemma exempt_pays_no_tax_witness :
  let c := calculate Scenario.lci (Scenario.dayAt 20) Scenario.cdiAnnual in
  iofAmount c = 0 /\ irAmount c = 0 /\ iofRate c = 0 /\ irRate c = 0.
Proof.
  exact (exempt_pays_no_tax Scenario.lci (Scenario.dayAt 20)
           Scenario.cdiAnnual eq_refl).
Defined.

(** C10.  Whenever the gross return is not negative, the two taxes together
    lie between 0 and the gross return: the IOF is at most 96% of the gain
    and the IR at most 22.5% of what the IOF leaves.  Hence the net value is
    at least the principal and the net return is not negative.  (Stated for
    every position; for an exempt one both taxes are 0.) *)
Theorem taxes_within_gain (inv : Investment) (currentDate : Date) (cdi : R) :
  let c := calculate inv currentDate cdi in
  0 <= grossReturn c ->
  0 <= iofAmount c + irAmount c <= grossReturn c /\
  iofAmount c <= 0.96 * grossReturn c /\
  irAmount c <= 0.225 * (grossReturn c - iofAmount c) /\
  principal inv <= netValue c /\
  0 <= netReturn c.
Proof.
  intro c. subst c. rewrite calculate_fields. cbv zeta.
  cbn [grossReturn iofAmount irAmount netValue netReturn].
  set (d := BusinessDaysCalculator.getCalendarDays _ _).
  set (gv := principal inv * _).
  intro Hg.
  destruct (isExemptFromIR inv).
  - repeat split; lra.
  - pose proof (calculateIOF_bounds (gv - principal inv) d Hg) as [Hi0 Hi1].
    pose proof (calculateIR_bounds (gv - principal inv)
                  (calculateIOF (gv - principal inv) d) d) as [Hr0 Hr1].
    assert (Hbase : 0 <= gv - principal inv
                         - calculateIOF (gv - principal inv) d) by lra.
    specialize (Hr1 Hbase).
    repeat split; lra.
Qed.

Lemma taxes_within_gain_witness :
  let c := calculate Scenario.cdb (Scenario.dayAt 365) Scenario.cdiAnnual in
  0 <= grossReturn c /\
  0 <= iofAmount c + irAmount c <= grossReturn c /\
  principal Scenario.cdb <= netValue c /\
  0 <= netReturn c.
Proof.
  intro c.
  assert (Hg : 0 <= grossReturn c).
  { subst c. rewrite grossReturn_is_gain, cdb_one_year_gross.
    change (principal Scenario.cdb) with 10000. lra. }
  destruct (taxes_within_gain Scenario.cdb (Scenario.dayAt 365)
              Scenario.cdiAnnual Hg) as (Hsum & _ & _ & Hnet & Hret).
  repeat split; solve [assumption | apply Hsum].
Defined.

End ValuationProperties.

(** ** Obligations *)

Section Obligations.

Import ExpenseManager.
Local Open Scope R_scope.

(** The total over a list is the sum of what each expense adds. *)
Lemma monthlyExpenses_from (targetDate : Date) (expenses : list Expense)
    (total : R) :
  fold_left (monthlyExpenses_step targetDate) expenses total
  = total
    + fold_right Rplus 0
        (map (fun e => getMonthlyExpenses [e] targetDate) expenses).
Proof.
  revert total.
  induction expenses as [ | e rest IH]; intro total; simpl.
  - ring.
  - rewrite IH. unfold getMonthlyExpenses. simpl.
    unfold monthlyExpenses_step.
    destruct (isPaid e); [ring | ].
    destruct (match paymentDate e with
              | Some p => JSDate.ltb targetDate p
              | None => false
              end); [ring | ].
    destruct ((0 <=? getMonthsDifference (startDate e) targetDate)%Z
              && (getMonthsDifference (startDate e) targetDate
                  <? installments e)%Z)%bool; ring.
Qed.

(** C4.  The monthly charge of one obligation at a target date (what
    [getMonthlyExpenses] adds for it) is 0 if the obligation is paid; 0 if a
    deferred payment date is set and the target date comes strictly before
    it; otherwise the monthly amount when the whole-month difference
    [(targetYear - startYear) * 12 + (targetMonth - startMonth)], which
    ignores the day of the month, lies in [0, installments), and 0 when it
    does not.  The total over a list is the sum of these charges. *)
Theorem monthly_charge_cases (e : Expense) (targetDate : Date) :
  let charge := getMonthlyExpenses [e] targetDate in
  let months :=
    ((getFullYear targetDate - getFullYear (startDate e)) * 12
     + (getMonth targetDate - getMonth (startDate e)))%Z in
  (isPaid e = true -> charge = 0) /\
  (forall p, paymentDate e = Some p -> (targetDate < p)%Z -> charge = 0) /\
  (isPaid e = false ->
   (forall p, paymentDate e = Some p -> (p <= targetDate)%Z) ->
   ((0 <= months < installments e)%Z -> charge = monthlyAmount e) /\
   (~ (0 <= months < installments e)%Z -> charge = 0)) /\
  (forall expenses,
     getMonthlyExpenses expenses targetDate
     = fold_right Rplus 0
         (map (fun x => getMonthlyExpenses [x] targetDate) expenses)).
Proof.
  intros charge months. subst charge.
  unfold getMonthlyExpenses at 1 2 3 4. simpl fold_left.
  unfold monthlyExpenses_step, getMonthsDifference, JSDate.ltb.
  fold months.
  split; [ | split; [ | split]].
  - intro Hpaid. rewrite Hpaid. reflexivity.
  - intros p Hp Hlt. rewrite Hp.
    destruct (isPaid e); [reflexivity | ].
    destruct (Z.ltb_spec targetDate p); [reflexivity | lia].
  - intros Hpaid Hdue. rewrite Hpaid.
    assert (Hnot : match paymentDate e with
                   | Some p => (targetDate <? p)%Z
                   | None => false
                   end = false).
    { destruct (paymentDate e) as [p | ]; [ | reflexivity].
      specialize (Hdue p eq_refl).
      destruct (Z.ltb_spec targetDate p); [lia | reflexivity]. }
    rewrite Hnot.
    destruct (Z.leb_spec 0 months) as [Hlo | Hlo];
      destruct (Z.ltb_spec months (installments e)) as [Hhi | Hhi];
      simpl andb; split; intro Hrange; try lia; ring.
  - intro expenses.
    unfold getMonthlyExpenses at 1. rewrite monthlyExpenses_from. ring.
Qed.

Lemma monthly_charge_cases_witness :
  getMonthlyExpenses [Scenario.loan] (Scenario.dayAt 40) = 100 /\
  getMonthlyExpenses [Scenario.loan] (Scenario.dayAt 365) = 0.
Proof.
  assert (Hdue : forall p, paymentDate Scenario.loan = Some p ->
                   forall t : Date, (p <= t)%Z)
    by (intros p Hp; discriminate Hp).
  split.
  - destruct (monthly_charge_cases Scenario.loan (Scenario.dayAt 40))
      as (_ & _ & Hcase & _).
    destruct (Hcase eq_refl (fun p Hp => Hdue p Hp _)) as [Hin _].
    apply Hin. vm_compute. split; [discriminate | reflexivity].
  - destruct (monthly_charge_cases Scenario.loan (Scenario.dayAt 365))
      as (_ & _ & Hcase & _).
    destruct (Hcase eq_refl (fun p Hp => Hdue p Hp _)) as [_ Hout].
    apply Hout. vm_compute. intros [_ Hlt]. discriminate Hlt.
Defined.

End Obligations.

(** ** The projection loop *)

Section CountingLoop.

Import FinancialEngine.

Lemma counting_last (lo : Z) (n : nat) :
  counting lo (S n) = counting lo n ++ [lo + Z.of_nat n].
Proof.
  unfold counting. rewrite seq_S, map_app. reflexivity.
Qed.

Lemma counting_length (lo : Z) (n : nat) : List.length (counting lo n) = n.
Proof. unfold counting. rewrite length_map, length_seq. reflexivity. Qed.

Lemma counting_nth (lo : Z) (n k : nat) :
  (k < n)%nat -> nth_error (counting lo n) k = Some (lo + Z.of_nat k).
Proof.
  intro H. unfold counting.
  rewrite nth_error_map, nth_error_seq.
  destruct (Nat.ltb_spec k n); [reflexivity | lia].
Qed.

End CountingLoop.

Section ProjectionLoop.

Import FinancialEngine Projection.
Local Open Scope R_scope.

Variable startDate : Date.
Variable investments : list Investment.
Variable expenses : list Expense.
Variable cdiAnnualRate : R.
Variable monthlySavings : R.

Local Abbreviation body :=
  (projectWealth_body investments expenses startDate cdiAnnualRate
     monthlySavings (monthlyRate cdiAnnualRate)).
Local Abbreviation point :=
  (pointAt startDate investments expenses cdiAnnualRate monthlySavings).
Local Abbreviation wealth :=
  (wealthAt startDate investments expenses cdiAnnualRate monthlySavings).
Local Abbreviation charged := (cumulativeExpenses startDate expenses).

(** The loop state after the first [n] iterations. *)
Local Abbreviation after n :=
  (fold_left body (counting 0 n)
     {| results := [];
        accumulatedWealth := 0;
        totalAccumulatedExpenses := 0 |}).

Lemma cumulativeExpenses_last (n : nat) :
  charged (S n)
  = charged n
    + ExpenseManager.getMonthlyExpenses expenses
        (targetDateAt startDate (Z.of_nat n)).
Proof.
  unfold cumulativeExpenses.
  rewrite counting_last, fold_left_app. reflexivity.
Qed.

(** Loop invariant: after [n] iterations the results are the points of the
    month indices [0 .. n-1], and the running total of expenses is what was
    charged over those months. *)
Lemma loop_invariant (n : nat) :
  results (after n) = map point (counting 0 n) /\
  totalAccumulatedExpenses (after n) = charged n.
Proof.
  induction n as [ | n [IHres IHexp]].
  - split; reflexivity.
  - rewrite counting_last, fold_left_app.
    change (0 + Z.of_nat n)%Z with (Z.of_nat n).
    cbn [fold_left].
    unfold projectWealth_body at 1 3.
    cbn [results totalAccumulatedExpenses].
    rewrite IHres, IHexp, map_app, cumulativeExpenses_last.
    split; [ | reflexivity].
    f_equal. cbn [map]. f_equal.
    unfold pointAt.
    assert (Hwealth :
      investmentsValueAt investments (targetDateAt startDate (Z.of_nat n))
        cdiAnnualRate
      + accumulatedSavingsAt monthlySavings (monthlyRate cdiAnnualRate)
          (Z.of_nat n)
      - (charged n
         + ExpenseManager.getMonthlyExpenses expenses
             (targetDateAt startDate (Z.of_nat n)))
      = wealth (Z.of_nat n)).
    { unfold wealthAt.
      replace (Z.to_nat (Z.of_nat n + 1)) with (S n) by lia.
      rewrite cumulativeExpenses_last. reflexivity. }
    rewrite Hwealth.
    f_equal. f_equal.
    destruct n as [ | m].
    + reflexivity.
    + replace (0 <? Z.of_nat (S m))%Z with true
        by (symmetry; apply Z.ltb_lt; lia).
      replace (Z.of_nat (S m) - 1)%Z with (Z.of_nat m) by lia.
      rewrite Nat2Z.id, nth_error_map, counting_nth by lia.
      reflexivity.
Qed.

(** [projectWealth] returns the points of the month indices
    [0 .. months]. *)
Lemma projectWealth_points (months : Z) :
  projectWealth startDate investments expenses months cdiAnnualRate
    monthlySavings
  = map point (counting 0 (Z.to_nat (months + 1))).
Proof.
  unfold projectWealth, projectWealth_loop.
  apply (loop_invariant (Z.to_nat (months + 1))).
Qed.


(** The point at position [i] of the result is the point of month [i]. *)
Lemma projectWealth_nth (months : Z) (i : nat) (p : ProjectionResult) :
  nth_error
    (projectWealth startDate investments expenses months cdiAnnualRate
       monthlySavings) i = Some p ->
  p = point (Z.of_nat i).
Proof.
  rewrite projectWealth_points, nth_error_map.
  intro H.
  destruct (Nat.lt_ge_cases i (Z.to_nat (months + 1))) as [Hlt | Hge].
  - rewrite counting_nth in H by exact Hlt.
    injection H as <-. reflexivity.
  - assert (Hnone : nth_error (counting 0 (Z.to_nat (months + 1))) i = None).
    { apply nth_error_None. rewrite counting_length. exact Hge. }
    rewrite Hnone in H. discriminate H.
Qed.

End ProjectionLoop.

(** ** Properties of the projection *)

Section ProjectionProperties.

Import FinancialEngine Projection.
Local Open Scope R_scope.

(** A power of a positive base is positive. *)
Lemma pow_positive (x y : R) : 0 < x -> 0 < JSMath.pow x y.
Proof.
  intro Hx. rewrite pow_positive_base by exact Hx.
  unfold Rpower. apply exp_pos.
Qed.

(** The monthly rate of an annual rate above -100% lies above -1. *)
Lemma monthlyRate_above_minus_one (cdi : R) :
  -100 < cdi -> -1 < CDIService.annualToMonthly cdi / 100.
Proof.
  intro H. unfold CDIService.annualToMonthly.
  pose proof (pow_positive (1 + cdi / 100) (1 / 12) ltac:(lra)) as Hpos.
  lra.
Qed.

(** For a positive annual rate the monthly rate is positive. *)
Lemma monthlyRate_positive (cdi : R) :
  0 < cdi -> 0 < CDIService.annualToMonthly cdi / 100.
Proof.
  intro H. unfold CDIService.annualToMonthly.
  rewrite pow_positive_base by lra.
  assert (Hone : 1 < Rpower (1 + cdi / 100) (1 / 12)).
  { rewrite <- (Rpower_O (1 + cdi / 100)) at 1 by lra.
    apply Rpower_lt; lra. }
  lra.
Qed.

(** Without expenses nothing is ever charged. *)
Lemma cumulativeExpenses_none (startDate : Date) (n : nat) :
  cumulativeExpenses startDate [] n = 0.
Proof.
  induction n as [ | n IH]; [reflexivity | ].
  rewrite cumulativeExpenses_last, IH.
  unfold ExpenseManager.getMonthlyExpenses. cbn [fold_left]. ring.
Qed.

(** No savings have accumulated at month 0; at month 1 the first
    contribution is there, without return yet. *)
Lemma accumulatedSavingsAt_0 (s r : R) : accumulatedSavingsAt s r 0 = 0.
Proof. reflexivity. Qed.

Lemma accumulatedSavingsAt_1 (s r : R) : accumulatedSavingsAt s r 1 = s.
Proof.
  unfold accumulatedSavingsAt.
  change (Z.to_nat 1) with 1%nat.
  cbn [counting seq map fold_left].
  change (1 - (1 + Z.of_nat 0))%Z with 0%Z.
  rewrite pow_exponent_zero. ring.
Qed.

(** A second input where the monthly return is not the growth of the net
    worth: no investments, no expenses, a monthly contribution of 100 at a
    CDI of 14.90%, one month ahead.  The net worth goes from 0 to 100, yet
    the monthly return at index 1 is [100 * monthlyRate], not
    [100 - 0 + 100 * monthlyRate]: the return is measured from the value of
    the investments alone (here 0), not from the net worth of index 1. *)
Lemma monthlyReturn_is_not_netWorth_difference :
  let rate := CDIService.annualToMonthly Scenario.cdiAnnual / 100 in
  exists q p : ProjectionResult,
    projectWealth (Scenario.dayAt 0) [] [] 1 Scenario.cdiAnnual 100 = [q; p] /\
    netWorth q = 0 /\ netWorth p = 100 /\
    monthlyReturn p = 100 * rate /\
    monthlyReturn p <> Rmax 0 (netWorth p - netWorth q + 100 * rate).
Proof.
  intro rate.
  assert (Hrate : 0 < rate).
  { apply monthlyRate_positive. unfold Scenario.cdiAnnual. lra. }
  exists (pointAt (Scenario.dayAt 0) [] [] Scenario.cdiAnnual 100 0).
  exists (pointAt (Scenario.dayAt 0) [] [] Scenario.cdiAnnual 100 1).
  split; [rewrite projectWealth_points; reflexivity | ].
  assert (Hw0 : wealthAt (Scenario.dayAt 0) [] [] Scenario.cdiAnnual 100 0
                = 0).
  { unfold wealthAt. rewrite cumulativeExpenses_none, accumulatedSavingsAt_0.
    unfold investmentsValueAt. cbn [fold_left]. ring. }
  assert (Hw1 : wealthAt (Scenario.dayAt 0) [] [] Scenario.cdiAnnual 100 1
                = 100).
  { unfold wealthAt. rewrite cumulativeExpenses_none, accumulatedSavingsAt_1.
    unfold investmentsValueAt. cbn [fold_left]. ring. }
  unfold pointAt. cbn [netWorth monthlyReturn].
  change (0 <? 1)%Z with true. cbv iota.
  change (1 - 1)%Z with 0%Z.
  rewrite Hw0, Hw1.
  unfold investmentsValueAt. cbn [fold_left].
  change (monthlyRate Scenario.cdiAnnual) with rate.
  replace (0 - 0 + 100 * rate) with (100 * rate) by ring.
  replace (100 - 0 + 100 * rate) with (100 + 100 * rate) by ring.
  rewrite !Rmax_right by lra.
  repeat split; try reflexivity. lra.
Qed.

(** What the loop computes as monthly return, operand by operand: 0 at
    index 0, and at every later index
    [max 0 (investments_i - netWorth_(i-1) + monthlySavings * monthlyRate)].
    The first operand is the net value of the investments alone at the date
    of point [i]; the second is the previous point's [totalInvestments]
    field, in which the loop has stored the net worth.  The two are unlike
    quantities as soon as savings or expenses are present. *)
Lemma monthlyReturn_formula
    (startDate : Date) (investments : list Investment)
    (expenses : list Expense) (months : Z) (cdiAnnualRate monthlySavings : R) :
  let res :=
    projectWealth startDate investments expenses months cdiAnnualRate
      monthlySavings in
  let rate := CDIService.annualToMonthly cdiAnnualRate / 100 in
  (forall p, nth_error res 0 = Some p -> monthlyReturn p = 0) /\
  (forall (i : nat) (p q : ProjectionResult),
     nth_error res (S i) = Some p ->
     nth_error res i = Some q ->
     monthlyReturn p =
       Rmax 0 (investmentsValueAt investments (date p) cdiAnnualRate
               - netWorth q + monthlySavings * rate)).
Proof.
  intros res rate. split.
  - intros p Hp. apply projectWealth_nth in Hp. subst p.
    unfold pointAt. cbn [monthlyReturn].
    change (0 <? Z.of_nat 0)%Z with false. cbv iota.
    apply Rmax_left. lra.
  - intros i p q Hp Hq.
    apply projectWealth_nth in Hp. apply projectWealth_nth in Hq. subst p q.
    unfold pointAt. cbn [monthlyReturn netWorth date].
    replace (0 <? Z.of_nat (S i))%Z with true
      by (symmetry; apply Z.ltb_lt; lia).
    replace (Z.of_nat (S i) - 1)%Z with (Z.of_nat i) by lia.
    reflexivity.
Qed.

Lemma monthlyReturn_formula_witness :
  exists q p : ProjectionResult,
    projectWealth (Scenario.dayAt 0) [Scenario.cdb] [Scenario.loan] 2
      Scenario.cdiAnnual 100 = [q; p; pointAt (Scenario.dayAt 0)
      [Scenario.cdb] [Scenario.loan] Scenario.cdiAnnual 100 2] /\
    monthlyReturn q = 0 /\
    monthlyReturn p =
      Rmax 0 (investmentsValueAt [Scenario.cdb] (date p) Scenario.cdiAnnual
              - netWorth q
              + 100 * (CDIService.annualToMonthly Scenario.cdiAnnual / 100)).
Proof.
  eexists. eexists.
  assert (Hres :
    projectWealth (Scenario.dayAt 0) [Scenario.cdb] [Scenario.loan] 2
      Scenario.cdiAnnual 100
    = map (pointAt (Scenario.dayAt 0) [Scenario.cdb] [Scenario.loan]
             Scenario.cdiAnnual 100) [0; 1; 2]%Z)
    by (rewrite projectWealth_points; reflexivity).
  split; [exact Hres | ].
  destruct (monthlyReturn_formula (Scenario.dayAt 0) [Scenario.cdb]
              [Scenario.loan] 2 Scenario.cdiAnnual 100) as [Hzero Hlater].
  split.
  - apply Hzero. rewrite Hres. reflexivity.
  - apply (Hlater 0%nat); rewrite Hres; reflexivity.
Defined.

(** C9.  In every point returned by [projectWealth], [totalInvestments]
    equals [netWorth], and both are the accumulated wealth: the value of the
    investments at the date of the point, plus the savings accumulated with
    their return, less every expense charged up to and including that month.
    The point has no total of the positions alone. *)
Theorem totalInvestments_is_netWorth
    (startDate : Date) (investments : list Investment)
    (expenses : list Expense) (months : Z) (cdiAnnualRate monthlySavings : R)
    (i : nat) (p : ProjectionResult) :
  nth_error
    (projectWealth startDate investments expenses months cdiAnnualRate
       monthlySavings) i = Some p ->
  totalInvestments p = netWorth p /\
  netWorth p =
    investmentsValueAt investments (date p) cdiAnnualRate
    + accumulatedSavingsAt monthlySavings
        (CDIService.annualToMonthly cdiAnnualRate / 100) (Z.of_nat i)
    - cumulativeExpenses startDate expenses (S i).
Proof.
  intro Hp. apply projectWealth_nth in Hp. subst p.
  unfold pointAt. cbn [totalInvestments netWorth date].
  split; [reflexivity | ].
  unfold wealthAt.
  replace (Z.to_nat (Z.of_nat i + 1)) with (S i) by lia.
  reflexivity.
Qed.

Lemma totalInvestments_is_netWorth_witness :
  exists p : ProjectionResult,
    nth_error
      (projectWealth (Scenario.dayAt 0) [Scenario.cdb] [Scenario.loan] 2
         Scenario.cdiAnnual 100) 1 = Some p /\
    totalInvestments p = netWorth p.
Proof.
  eexists.
  assert (Hp :
    nth_error
      (projectWealth (Scenario.dayAt 0) [Scenario.cdb] [Scenario.loan] 2
         Scenario.cdiAnnual 100) 1
    = Some (pointAt (Scenario.dayAt 0) [Scenario.cdb] [Scenario.loan]
              Scenario.cdiAnnual 100 1))
    by (rewrite projectWealth_points; reflexivity).
  split; [exact Hp | ].
  apply (totalInvestments_is_netWorth _ _ _ _ _ _ _ _ Hp).
Defined.

End ProjectionProperties.

(** ** The calendar *)

Section Calendar.

(** The civil date of a day number gives the day number back, with a month
    in 1..12 and a day in 1..31. *)
Lemma civil_of_day (z : Z) :
  let '(y, m, d) := civil_from_days z in
  days_from_civil y m d = z /\ 1 <= m <= 12 /\ 1 <= d <= 31.
Proof.
  unfold civil_from_days, days_from_civil. cbv zeta.
  set (era := (z + 719468) / 146097).
  set (doe := z + 719468 - era * 146097).
  set (yoe := (doe - doe / 1460 + doe / 36524 - doe / 146096) / 365).
  set (doy := doe - (365 * yoe + yoe / 4 - yoe / 100)).
  set (mp := (5 * doy + 2) / 153).
  assert (Hdoe : 0 <= doe < 146097)
    by (subst doe era; Z.div_mod_to_equations; lia).
  assert (Hy : 0 <= yoe <= 399 /\ 0 <= doy <= 365)
    by (subst doy yoe; Z.div_mod_to_equations; lia).
  assert (Hmp : 0 <= mp <= 11)
    by (subst mp; Z.div_mod_to_equations; lia).
  destruct (Z.ltb_spec mp 10) as [Hlt | Hge].
  - destruct (Z.leb_spec (mp + 3) 2) as [Hm | Hm]; [lia | ].
    destruct (Z.ltb_spec 2 (mp + 3)) as [_ | Hm']; [ | lia].
    replace (mp + 3 - 3) with mp by ring.
    replace ((yoe + era * 400) / 400) with era
      by (Z.div_mod_to_equations; lia).
    replace (yoe + era * 400 - era * 400) with yoe by ring.
    split; [subst doy; lia | ].
    split; [lia | ]. subst mp. Z.div_mod_to_equations. lia.
  - destruct (Z.leb_spec (mp - 9) 2) as [Hm | Hm]; [ | lia].
    destruct (Z.ltb_spec 2 (mp - 9)) as [Hm' | _]; [lia | ].
    replace (mp - 9 + 9) with mp by ring.
    replace (yoe + era * 400 + 1 - 1) with (yoe + era * 400) by ring.
    replace ((yoe + era * 400) / 400) with era
      by (Z.div_mod_to_equations; lia).
    replace (yoe + era * 400 - era * 400) with yoe by ring.
    split; [subst doy; lia | ].
    split; [lia | ]. subst mp. Z.div_mod_to_equations. lia.
Qed.

(** The day number of the civil date of a day is that day. *)
Lemma days_from_civil_from_days (z : Z) :
  let '(y, m, d) := civil_from_days z in days_from_civil y m d = z.
Proof.
  pose proof (civil_of_day z) as H.
  destruct (civil_from_days z) as [[y m] d]. apply H.
Qed.

Lemma civil_from_days_ranges (z : Z) :
  let '(_, m, d) := civil_from_days z in 1 <= m <= 12 /\ 1 <= d <= 31.
Proof.
  pose proof (civil_of_day z) as H.
  destruct (civil_from_days z) as [[y m] d]. apply H.
Qed.

(** The other way round, for the days every month has. *)
Lemma civil_from_days_from_civil (y m d : Z) :
  1 <= m <= 12 -> 1 <= d <= 28 ->
  civil_from_days (days_from_civil y m d) = (y, m, d).
Proof.
  intros Hm Hd.
  unfold days_from_civil. cbv zeta.
  set (y' := if m <=? 2 then y - 1 else y).
  set (era := y' / 400).
  set (yoe := y' - era * 400).
  set (mp := if 2 <? m then m - 3 else m + 9).
  set (doy := (153 * mp + 2) / 5 + d - 1).
  assert (Hyoe : 0 <= yoe <= 399)
    by (subst yoe era; Z.div_mod_to_equations; lia).
  assert (Hmp : 0 <= mp <= 11)
    by (subst mp; destruct (Z.ltb_spec 2 m); lia).
  assert (Hdoy : 0 <= doy <= 364 /\ (5 * doy + 2) / 153 = mp
                 /\ doy - (153 * mp + 2) / 5 + 1 = d).
  { subst doy. Z.div_mod_to_equations. lia. }
  unfold civil_from_days. cbv zeta.
  replace (era * 146097 + (yoe * 365 + yoe / 4 - yoe / 100 + doy) - 719468
           + 719468)
    with (yoe * 365 + yoe / 4 - yoe / 100 + doy + era * 146097) by ring.
  set (doe := yoe * 365 + yoe / 4 - yoe / 100 + doy).
  assert (Hdoe : 0 <= doe < 146097)
    by (subst doe; Z.div_mod_to_equations; lia).
  rewrite Z.div_add by lia. rewrite (Z.div_small doe) by lia.
  replace (doe + era * 146097 - (0 + era) * 146097) with doe by ring.
  assert (Hy : (doe - doe / 1460 + doe / 36524 - doe / 146096) / 365 = yoe).
  { subst doe. Z.div_mod_to_equations. lia. }
  rewrite Hy.
  replace (doe - (365 * yoe + yoe / 4 - yoe / 100)) with doy
    by (subst doe; ring).
  destruct Hdoy as (_ & Hmp' & Hd').
  rewrite Hmp', Hd'.
  subst mp y'.
  destruct (Z.ltb_spec 2 m) as [H2 | H2].
  - destruct (Z.ltb_spec (m - 3) 10); [ | lia].
    replace (m - 3 + 3) with m by ring.
    destruct (Z.leb_spec m 2); [lia | ].
    f_equal. f_equal. subst yoe era.
    destruct (Z.leb_spec m 2); [lia | ]. ring.
  - destruct (Z.ltb_spec (m + 9) 10); [lia | ].
    replace (m + 9 - 9) with m by ring.
    destruct (Z.leb_spec m 2); [ | lia].
    f_equal. f_equal. subst yoe era.
    destruct (Z.leb_spec m 2); [ | lia]. ring.
Qed.

(** The day number grows by one with the day of the month. *)
Lemma days_from_civil_day (y m d : Z) :
  days_from_civil y m d = days_from_civil y m 1 + d - 1.
Proof. unfold days_from_civil. cbv zeta. ring. Qed.

End Calendar.

(** ** Dates *)

Section Dates.

Lemma msPerDay_pos : 0 < msPerDay.
Proof. reflexivity. Qed.

(** A date is its day number and its time within the day. *)
Lemma Date_decompose (t : Date) :
  t = Day t * msPerDay + TimeWithinDay t /\ 0 <= TimeWithinDay t < msPerDay.
Proof.
  unfold Day, TimeWithinDay. split.
  - rewrite Z.mul_comm. apply Z.div_mod. unfold msPerDay; lia.
  - apply Z.mod_pos_bound. exact msPerDay_pos.
Qed.

Lemma Day_compose (n r : Z) :
  0 <= r < msPerDay -> Day (n * msPerDay + r) = n.
Proof.
  intro Hr. unfold Day.
  rewrite Z.add_comm, Z.div_add by (unfold msPerDay; lia).
  rewrite Z.div_small by exact Hr. reflexivity.
Qed.

Lemma TimeWithinDay_compose (n r : Z) :
  0 <= r < msPerDay -> TimeWithinDay (n * msPerDay + r) = r.
Proof.
  intro Hr. unfold TimeWithinDay.
  rewrite Z.add_comm, Z.mod_add by (unfold msPerDay; lia).
  apply Z.mod_small. exact Hr.
Qed.

Lemma Day_setHoursZero (t : Date) : Day (setHoursZero t) = Day t.
Proof.
  unfold setHoursZero.
  replace (Day t * msPerDay) with (Day t * msPerDay + 0) by ring.
  apply Day_compose. unfold msPerDay; lia.
Qed.

Lemma Day_midnight (n : Z) : Day (n * msPerDay) = n.
Proof.
  replace (n * msPerDay) with (n * msPerDay + 0) by ring.
  apply Day_compose. unfold msPerDay; lia.
Qed.

Lemma getMonth_range (t : Date) : 0 <= getMonth t <= 11.
Proof.
  unfold getMonth. pose proof (civil_from_days_ranges (Day t)) as H.
  destruct (civil_from_days (Day t)) as [[y m] d]. lia.
Qed.

Lemma getDate_range (t : Date) : 1 <= getDate t <= 31.
Proof.
  unfold getDate. pose proof (civil_from_days_ranges (Day t)) as H.
  destruct (civil_from_days (Day t)) as [[y m] d]. lia.
Qed.

(** [MakeDay] of the year and the month of a date, with any day of the
    month [n]: the day number moves by [n - getDate]. *)
Lemma MakeDay_same_month (t : Date) (n : Z) :
  MakeDay (getFullYear t) (getMonth t) n = Day t + (n - getDate t).
Proof.
  unfold MakeDay, getFullYear, getMonth, getDate.
  pose proof (civil_from_days_ranges (Day t)) as Hr.
  pose proof (days_from_civil_from_days (Day t)) as Hrt.
  destruct (civil_from_days (Day t)) as [[y m] d].
  rewrite Z.div_small, Z.mod_small by lia.
  replace (m - 1 + 1) with m by ring. rewrite Z.add_0_r.
  rewrite (days_from_civil_day y m d) in Hrt. lia.
Qed.

(** [setDate (getDate () + k)] moves a date by [k] whole days. *)
Lemma setDate_shift (t : Date) (k : Z) :
  setDate t (getDate t + k) = t + k * msPerDay.
Proof.
  unfold setDate. rewrite MakeDay_same_month.
  destruct (Date_decompose t) as [Ht _].
  unfold msPerDay in *. lia.
Qed.

(** The fields of a date built from a year, a month and a day every month
    has. *)
Lemma fields_of_civil (y m d r : Z) :
  1 <= m <= 12 -> 1 <= d <= 28 -> 0 <= r < msPerDay ->
  let t := days_from_civil y m d * msPerDay + r in
  getFullYear t = y /\ getMonth t = m - 1 /\ getDate t = d.
Proof.
  intros Hm Hd Hr t. subst t.
  unfold getFullYear, getMonth, getDate.
  rewrite Day_compose by exact Hr.
  rewrite civil_from_days_from_civil by assumption.
  repeat split; reflexivity.
Qed.

(** [setMonth] on a date whose day of the month is at most 28: the day is
    kept, the month is [n mod 12] and the year moves by [n / 12]. *)
Lemma setMonth_fields (t : Date) (n : Z) :
  getDate t <= 28 ->
  getFullYear (setMonth t n) = getFullYear t + n / 12 /\
  getMonth (setMonth t n) = n mod 12 /\
  getDate (setMonth t n) = getDate t.
Proof.
  intro Hd. unfold setMonth, MakeDay.
  pose proof (getDate_range t) as Hdr.
  pose proof (Z.mod_pos_bound n 12 ltac:(lia)) as Hn.
  destruct (Date_decompose t) as [_ Hr].
  replace (days_from_civil (getFullYear t + n / 12) (n mod 12 + 1) 1
           + getDate t - 1)
    with (days_from_civil (getFullYear t + n / 12) (n mod 12 + 1)
            (getDate t))
    by (rewrite (days_from_civil_day _ _ (getDate t)); ring).
  destruct (fields_of_civil (getFullYear t + n / 12) (n mod 12 + 1)
              (getDate t) (TimeWithinDay t) ltac:(lia) ltac:(lia) Hr)
    as (Hy & Hm & Hdd).
  rewrite Hy, Hm, Hdd. repeat split; lia.
Qed.


End Dates.

(** ** Business days *)

Section BusinessDays.

Import BusinessDaysCalculator FinancialEngine.

Lemma counting_first (lo : Z) (n : nat) :
  counting lo (S n) = lo :: counting (lo + 1) n.
Proof.
  unfold counting. cbn [seq map]. f_equal; [lia | ].
  rewrite <- seq_shift, map_map.
  apply map_ext. intro k. lia.
Qed.

Lemma counting_app (lo : Z) (n m : nat) :
  counting lo (n + m) = counting lo n ++ counting (lo + Z.of_nat n) m.
Proof.
  revert lo. induction n as [ | n IH]; intro lo.
  - cbn [Nat.add]. unfold counting at 2. cbn [seq map app].
    f_equal. lia.
  - cbn [Nat.add]. rewrite !counting_first, IH. cbn [app].
    replace (lo + 1 + Z.of_nat n) with (lo + Z.of_nat (S n)) by lia.
    reflexivity.
Qed.

Lemma businessDaysAfter_zero (day : Z) : businessDaysAfter day 0 = 0.
Proof. reflexivity. Qed.

Lemma businessDaysAfter_first (day : Z) (n : nat) :
  businessDaysAfter day (S n) =
    (if isBusinessDay ((day + 1) * msPerDay) then 1 else 0)
    + businessDaysAfter (day + 1) n.
Proof.
  unfold businessDaysAfter. rewrite counting_first. cbn [filter].
  destruct (isBusinessDay ((day + 1) * msPerDay)); cbn [List.length]; lia.
Qed.

Lemma businessDaysAfter_app (day : Z) (n m : nat) :
  businessDaysAfter day (n + m) =
    businessDaysAfter day n + businessDaysAfter (day + Z.of_nat n) m.
Proof.
  unfold businessDaysAfter.
  rewrite counting_app, filter_app, length_app.
  replace (day + 1 + Z.of_nat n) with (day + Z.of_nat n + 1) by ring.
  lia.
Qed.

Lemma businessDaysAfter_bounds (day : Z) (n : nat) :
  0 <= businessDaysAfter day n <= Z.of_nat n.
Proof.
  revert day. induction n as [ | n IH]; intro day.
  - rewrite businessDaysAfter_zero. lia.
  - rewrite businessDaysAfter_first. specialize (IH (day + 1)).
    destruct (isBusinessDay ((day + 1) * msPerDay)); lia.
Qed.

(** Whatever the loop returns is the count of the business days between
    the two midnights. *)
Lemma getBusinessDays_loop_result (fuel : nat) :
  forall (cur end_ count r : Z),
    getBusinessDays_loop fuel (cur * msPerDay) (end_ * msPerDay) count
    = Some r ->
    r = count + businessDaysAfter cur (Z.to_nat (end_ - cur)).
Proof.
  induction fuel as [ | fuel IH]; intros cur end_ count r Hrun;
    cbn [getBusinessDays_loop] in Hrun; unfold JSDate.ltb in Hrun;
    destruct (Z.ltb_spec (cur * msPerDay) (end_ * msPerDay)) as [Hlt | Hge].
  - discriminate Hrun.
  - injection Hrun as <-.
    replace (Z.to_nat (end_ - cur)) with 0%nat
      by (unfold msPerDay in Hge; lia).
    rewrite businessDaysAfter_zero. ring.
  - rewrite setDate_shift in Hrun.
    replace (cur * msPerDay + 1 * msPerDay) with ((cur + 1) * msPerDay)
      in Hrun by ring.
    apply IH in Hrun. rewrite Hrun.
    replace (Z.to_nat (end_ - cur)) with (S (Z.to_nat (end_ - (cur + 1))))
      by (unfold msPerDay in Hlt; lia).
    rewrite businessDaysAfter_first.
    destruct (isBusinessDay ((cur + 1) * msPerDay)); ring.
  - injection Hrun as <-.
    replace (Z.to_nat (end_ - cur)) with 0%nat
      by (unfold msPerDay in Hge; lia).
    rewrite businessDaysAfter_zero. ring.
Qed.

(** With one unit of fuel per day between the two midnights the loop
    ends. *)
Lemma getBusinessDays_loop_ends (fuel : nat) :
  forall (cur end_ count : Z),
    (Z.to_nat (end_ - cur) <= fuel)%nat ->
    exists r,
      getBusinessDays_loop fuel (cur * msPerDay) (end_ * msPerDay) count
      = Some r.
Proof.
  induction fuel as [ | fuel IH]; intros cur end_ count Hfuel;
    cbn [getBusinessDays_loop]; unfold JSDate.ltb;
    destruct (Z.ltb_spec (cur * msPerDay) (end_ * msPerDay)) as [Hlt | Hge];
    try (eexists; reflexivity).
  - unfold msPerDay in Hlt. lia.
  - rewrite setDate_shift.
    replace (cur * msPerDay + 1 * msPerDay) with ((cur + 1) * msPerDay)
      by ring.
    apply IH. unfold msPerDay in Hlt. lia.
Qed.

(** A business day is never a Saturday or a Sunday. *)
Lemma isBusinessDay_isWeekday (day : Z) :
  isBusinessDay (day * msPerDay) = true -> isWeekday day = true.
Proof.
  unfold isBusinessDay, isWeekday, getDay. rewrite Day_midnight.
  destruct (((day + 4) mod 7 =? 0) || ((day + 4) mod 7 =? 6));
    [discriminate | reflexivity].
Qed.

(** Being a weekday depends on the day number modulo 7. *)
Lemma isWeekday_mod (day : Z) : isWeekday day = isWeekday (day mod 7).
Proof.
  unfold isWeekday.
  replace ((day mod 7 + 4) mod 7) with ((day + 4) mod 7); [reflexivity | ].
  rewrite (Z.add_mod day 4 7), (Z.add_mod (day mod 7) 4 7) by lia.
  rewrite Z.mod_mod by lia. reflexivity.
Qed.

(** Seven days in a row hold at most five business days. *)
Lemma businessDaysAfter_week (day : Z) : businessDaysAfter day 7 <= 5.
Proof.
  assert (Hcount : forall j,
            (if isBusinessDay ((day + j) * msPerDay) then 1 else 0)
            <= (if isWeekday ((day mod 7 + j) mod 7) then 1 else 0)).
  { intro j.
    pose proof (isBusinessDay_isWeekday (day + j)) as Hw.
    assert (Heq : isWeekday (day + j) = isWeekday ((day mod 7 + j) mod 7)).
    { rewrite (isWeekday_mod (day + j)).
      rewrite <- (Z.add_mod_idemp_l day j 7) by lia. reflexivity. }
    rewrite Heq in Hw.
    destruct (isBusinessDay ((day + j) * msPerDay));
      [rewrite Hw by reflexivity | destruct (isWeekday _)]; lia. }
  do 7 rewrite businessDaysAfter_first. rewrite businessDaysAfter_zero.
  replace (day + 1 + 1) with (day + 2) by ring.
  replace (day + 2 + 1) with (day + 3) by ring.
  replace (day + 3 + 1) with (day + 4) by ring.
  replace (day + 4 + 1) with (day + 5) by ring.
  replace (day + 5 + 1) with (day + 6) by ring.
  replace (day + 6 + 1) with (day + 7) by ring.
  pose proof (Hcount 1) as H1. pose proof (Hcount 2) as H2.
  pose proof (Hcount 3) as H3. pose proof (Hcount 4) as H4.
  pose proof (Hcount 5) as H5. pose proof (Hcount 6) as H6.
  pose proof (Hcount 7) as H7.
  pose proof (Z.mod_pos_bound day 7 ltac:(lia)) as Hr.
  assert (Hfive : forall r, 0 <= r < 7 ->
            (if isWeekday ((r + 1) mod 7) then 1 else 0)
            + (if isWeekday ((r + 2) mod 7) then 1 else 0)
            + (if isWeekday ((r + 3) mod 7) then 1 else 0)
            + (if isWeekday ((r + 4) mod 7) then 1 else 0)
            + (if isWeekday ((r + 5) mod 7) then 1 else 0)
            + (if isWeekday ((r + 6) mod 7) then 1 else 0)
            + (if isWeekday ((r + 7) mod 7) then 1 else 0) = 5).
  { intros r Hrange.
    assert (Hcases : r = 0 \/ r = 1 \/ r = 2 \/ r = 3 \/ r = 4 \/ r = 5
                     \/ r = 6) by lia.
    destruct Hcases as [-> | [-> | [-> | [-> | [-> | [-> | ->]]]]]];
      reflexivity. }
  specialize (Hfive (day mod 7) Hr). lia.
Qed.

Lemma businessDaysAfter_weeks (w : nat) :
  forall day, businessDaysAfter day (7 * w) <= 5 * Z.of_nat w.
Proof.
  induction w as [ | w IH]; intro day.
  - rewrite businessDaysAfter_zero. lia.
  - replace (7 * S w)%nat with (7 + 7 * w)%nat by lia.
    rewrite businessDaysAfter_app.
    pose proof (businessDaysAfter_week day).
    specialize (IH (day + Z.of_nat 7)). lia.
Qed.

End BusinessDays.

(** ** Properties of the business-day counters *)

Section BusinessDayProperties.

Import BusinessDaysCalculator.

(** X1.  [getBusinessDays] ends: with at least one unit of fuel per day
    between the two dates the loop returns a count, the number of business
    days after the start day up to and including the end day, and that count
    lies between 0 and the calendar days between the dates. *)
Theorem getBusinessDays_ends (startDate endDate : Date) (fuel : nat) :
  (Z.to_nat (Day endDate - Day startDate) <= fuel)%nat ->
  exists n,
    getBusinessDays fuel startDate endDate = Some n /\
    n = businessDaysAfter (Day startDate)
          (Z.to_nat (Day endDate - Day startDate)) /\
    0 <= n <= getCalendarDays startDate endDate.
Proof.
  intro Hfuel. unfold getBusinessDays, setHoursZero.
  destruct (getBusinessDays_loop_ends fuel (Day startDate) (Day endDate) 0
              Hfuel) as [n Hn].
  exists n. split; [exact Hn | ].
  apply getBusinessDays_loop_result in Hn. rewrite Z.add_0_l in Hn.
  split; [exact Hn | ].
  rewrite getCalendarDays_days.
  pose proof (businessDaysAfter_bounds (Day startDate)
                (Z.to_nat (Day endDate - Day startDate))).
  lia.
Qed.

Lemma getBusinessDays_ends_witness :
  exists n,
    getBusinessDays 7 (Scenario.dayAt 0) (Scenario.dayAt 7) = Some n /\
    0 <= n <= 7.
Proof.
  assert (Hfuel :
    (Z.to_nat (Day (Scenario.dayAt 7) - Day (Scenario.dayAt 0)) <= 7)%nat)
    by (vm_compute; apply le_n).
  destruct (getBusinessDays_ends (Scenario.dayAt 0) (Scenario.dayAt 7) 7
              Hfuel) as (n & Hn & _ & Hb).
  exists n. split; [exact Hn | ].
  rewrite getCalendarDays_days in Hb.
  change (Day (Scenario.dayAt 7) - Day (Scenario.dayAt 0)) with 7 in Hb.
  lia.
Defined.

(** X2.  When the end date falls on the start day or before it, the loop
    body never runs: the count is 0 whatever the fuel. *)
Theorem getBusinessDays_not_after (startDate endDate : Date) (fuel : nat) :
  Day endDate <= Day startDate ->
  getBusinessDays fuel startDate endDate = Some 0.
Proof.
  intro Hle. unfold getBusinessDays, setHoursZero.
  assert (Hnot : JSDate.ltb (Day startDate * msPerDay)
                   (Day endDate * msPerDay) = false).
  { unfold JSDate.ltb. apply Z.ltb_ge. unfold msPerDay. lia. }
  destruct fuel; cbn [getBusinessDays_loop]; rewrite Hnot; reflexivity.
Qed.

Lemma getBusinessDays_not_after_witness :
  getBusinessDays 0 (Scenario.dayAt 7) (Scenario.dayAt 0) = Some 0.
Proof.
  apply getBusinessDays_not_after. vm_compute. discriminate.
Defined.

(** X3.  Business days add up over adjacent periods: for dates on days
    [a <= b <= c], the count from [a] to [c] is the count from [a] to [b]
    plus the count from [b] to [c]. *)
Theorem getBusinessDays_additive (a b c : Date) (f1 f2 f3 : nat)
    (n1 n2 n3 : Z) :
  Day a <= Day b <= Day c ->
  getBusinessDays f1 a b = Some n1 ->
  getBusinessDays f2 b c = Some n2 ->
  getBusinessDays f3 a c = Some n3 ->
  n3 = n1 + n2.
Proof.
  intros Hdays H1 H2 H3.
  unfold getBusinessDays, setHoursZero in H1, H2, H3.
  apply getBusinessDays_loop_result in H1, H2, H3.
  rewrite H1, H2, H3, !Z.add_0_l.
  replace (Z.to_nat (Day c - Day a))
    with (Z.to_nat (Day b - Day a) + Z.to_nat (Day c - Day b))%nat by lia.
  rewrite businessDaysAfter_app.
  replace (Day a + Z.of_nat (Z.to_nat (Day b - Day a))) with (Day b) by lia.
  reflexivity.
Qed.

Lemma getBusinessDays_additive_witness :
  exists n1 n2 n3,
    getBusinessDays 7 (Scenario.dayAt 0) (Scenario.dayAt 7) = Some n1 /\
    getBusinessDays 7 (Scenario.dayAt 7) (Scenario.dayAt 14) = Some n2 /\
    getBusinessDays 14 (Scenario.dayAt 0) (Scenario.dayAt 14) = Some n3 /\
    n3 = n1 + n2.
Proof.
  exists 5, 5, 10.
  assert (H1 : getBusinessDays 7 (Scenario.dayAt 0) (Scenario.dayAt 7)
               = Some 5) by (vm_compute; reflexivity).
  assert (H2 : getBusinessDays 7 (Scenario.dayAt 7) (Scenario.dayAt 14)
               = Some 5) by (vm_compute; reflexivity).
  assert (H3 : getBusinessDays 14 (Scenario.dayAt 0) (Scenario.dayAt 14)
               = Some 10) by (vm_compute; reflexivity).
  assert (Hdays : Day (Scenario.dayAt 0) <= Day (Scenario.dayAt 7)
                  <= Day (Scenario.dayAt 14))
    by (vm_compute; split; discriminate).
  split; [exact H1 | ]. split; [exact H2 | ]. split; [exact H3 | ].
  exact (getBusinessDays_additive _ _ _ _ _ _ _ _ _ Hdays H1 H2 H3).
Defined.

(** X4.  Weekends are never counted: over a period of [w] whole weeks at
    most [5 * w] business days are found. *)
Theorem getBusinessDays_weeks (startDate endDate : Date) (fuel : nat)
    (w n : Z) :
  0 <= w ->
  Day endDate - Day startDate = 7 * w ->
  getBusinessDays fuel startDate endDate = Some n ->
  n <= 5 * w.
Proof.
  intros Hw Hspan Hrun.
  unfold getBusinessDays, setHoursZero in Hrun.
  apply getBusinessDays_loop_result in Hrun. rewrite Z.add_0_l in Hrun.
  rewrite Hrun, Hspan.
  replace (Z.to_nat (7 * w)) with (7 * Z.to_nat w)%nat by lia.
  pose proof (businessDaysAfter_weeks (Z.to_nat w) (Day startDate)). lia.
Qed.

Lemma getBusinessDays_weeks_witness :
  exists n,
    getBusinessDays 7 (Scenario.dayAt 0) (Scenario.dayAt 7) = Some n /\
    n <= 5 * 1.
Proof.
  exists 5.
  assert (Hrun : getBusinessDays 7 (Scenario.dayAt 0) (Scenario.dayAt 7)
                 = Some 5) by (vm_compute; reflexivity).
  assert (Hspan : Day (Scenario.dayAt 7) - Day (Scenario.dayAt 0) = 7 * 1)
    by (vm_compute; reflexivity).
  split; [exact Hrun | ].
  exact (getBusinessDays_weeks _ _ _ 1 5 ltac:(lia) Hspan Hrun).
Defined.

(** X5.  The fixed holidays hold in every year and at every time of the
    day: a date on one of the eight (month, day) pairs is no business day. *)
Theorem holiday_is_no_business_day (y m d r : Z) :
  In (m, d) FIXED_HOLIDAYS ->
  0 <= r < msPerDay ->
  isBusinessDay (days_from_civil y (m + 1) d * msPerDay + r) = false.
Proof.
  intros Hin Hr.
  assert (Hfields :
    1 <= m + 1 <= 12 /\ 1 <= d <= 28 /\
    existsb (fun h => (fst h =? m) && (snd h =? d)) FIXED_HOLIDAYS = true).
  { unfold FIXED_HOLIDAYS in *. cbn [In] in Hin.
    repeat (destruct Hin as [Heq | Hin];
            [injection Heq as <- <-; repeat split; try lia; reflexivity | ]).
    contradiction. }
  destruct Hfields as (Hm & Hd & Hex).
  destruct (fields_of_civil y (m + 1) d r Hm Hd Hr) as (_ & Hmonth & Hday).
  unfold isBusinessDay.
  rewrite Hmonth, Hday.
  replace (m + 1 - 1) with m by ring.
  rewrite Hex.
  destruct ((getDay _ =? 0) || (getDay _ =? 6)); reflexivity.
Qed.

Lemma holiday_is_no_business_day_witness :
  isBusinessDay (days_from_civil 2026 12 25 * msPerDay + 3600000) = false.
Proof.
  apply (holiday_is_no_business_day 2026 11 25 3600000).
  - cbn [FIXED_HOLIDAYS In]. do 7 right. left. reflexivity.
  - unfold msPerDay. lia.
Defined.

Lemma estimateBusinessDays_monotone (n m : Z) :
  n <= m -> estimateBusinessDays n <= estimateBusinessDays m.
Proof.
  intro Hle. rewrite !estimateBusinessDays_div.
  apply Z.div_le_mono; lia.
Qed.

Lemma estimateBusinessDays_bounds (n : Z) :
  0 <= n -> 0 <= estimateBusinessDays n <= n.
Proof.
  intro Hn. rewrite estimateBusinessDays_div. split.
  - apply Z.div_pos; lia.
  - apply Z.lt_succ_r. apply Z.div_lt_upper_bound; lia.
Qed.

Lemma estimateBusinessDays_years (k : Z) :
  estimateBusinessDays (365 * k) = 252 * k.
Proof.
  rewrite estimateBusinessDays_div.
  replace (504 * (365 * k) + 365) with (365 + (252 * k) * 730) by ring.
  rewrite Z.div_add by lia. reflexivity.
Qed.

(** X6.  The estimate of business days grows with the calendar days, lies
    between 0 and the calendar days, and gives 252 business days for every
    whole year of 365 days. *)
Theorem estimateBusinessDays_shape :
  (forall n m, n <= m -> estimateBusinessDays n <= estimateBusinessDays m) /\
  (forall n, 0 <= n -> 0 <= estimateBusinessDays n <= n) /\
  (forall k, estimateBusinessDays (365 * k) = 252 * k).
Proof.
  split; [exact estimateBusinessDays_monotone | ].
  split; [exact estimateBusinessDays_bounds | ].
  exact estimateBusinessDays_years.
Qed.

Lemma estimateBusinessDays_shape_witness :
  estimateBusinessDays 30 <= estimateBusinessDays 31 /\
  0 <= estimateBusinessDays 30 <= 30.
Proof.
  destruct estimateBusinessDays_shape as (Hmono & Hbound & _).
  split; [apply Hmono; lia | apply Hbound; lia].
Defined.

End BusinessDayProperties.

(** ** Powers *)

Section Powers.

Local Open Scope R_scope.

Lemma Int_part_IZR (z : Z) : Int_part (IZR z) = z.
Proof. symmetry. apply Int_part_spec. split; lra. Qed.

(** On a natural exponent [Math.pow] is repeated multiplication, whatever
    the base. *)
Lemma pow_natural (x : R) (n : nat) :
  JSMath.pow x (IZR (Z.of_nat n)) = x ^ n.
Proof.
  destruct n as [ | n].
  - cbn [Z.of_nat]. rewrite pow_exponent_zero. reflexivity.
  - unfold JSMath.pow.
    assert (Hpos : 0 < IZR (Z.of_nat (S n))) by (apply IZR_lt; lia).
    destruct (Req_EM_T (IZR (Z.of_nat (S n))) 0) as [H0 | _]; [lra | ].
    destruct (Rlt_dec 0 x) as [Hx | Hx].
    + rewrite <- INR_IZR_INZ. apply Rpower_pow. exact Hx.
    + destruct (Req_EM_T x 0) as [-> | Hx0].
      * destruct (Rlt_dec 0 (IZR (Z.of_nat (S n)))) as [_ | Hn];
          [ | contradiction].
        rewrite pow_i by lia. reflexivity.
      * rewrite Int_part_IZR.
        destruct (Req_EM_T (IZR (Z.of_nat (S n))) (IZR (Z.of_nat (S n))))
          as [_ | Hne]; [ | contradiction Hne; reflexivity].
        symmetry. apply pow_powerRZ.
Qed.

Lemma pow_nonneg_int (x : R) (k : Z) :
  (0 <= k)%Z -> JSMath.pow x (IZR k) = x ^ Z.to_nat k.
Proof.
  intro Hk. rewrite <- (Z2Nat.id k) at 1 by exact Hk. apply pow_natural.
Qed.

(** A real power of a base of at least 1 grows with the exponent. *)
Lemma Rpower_exponent_le (x y z : R) :
  1 <= x -> y <= z -> Rpower x y <= Rpower x z.
Proof.
  intros Hx Hyz.
  destruct (Req_dec x 1) as [-> | Hne].
  - unfold Rpower. rewrite ln_1, !Rmult_0_r. lra.
  - destruct (Req_dec y z) as [-> | Hyz'].
    + lra.
    + left. apply Rpower_lt; lra.
Qed.

Lemma Rpower_at_least_one (x y : R) : 1 <= x -> 0 <= y -> 1 <= Rpower x y.
Proof.
  intros Hx Hy. rewrite <- (Rpower_O x) by lra.
  apply Rpower_exponent_le; assumption.
Qed.

(** A root of a positive number, raised to a multiple of the root's
    degree. *)
Lemma pow_root_multiple (a n : R) (k : nat) :
  0 < a -> n <> 0 ->
  JSMath.pow (JSMath.pow a (1 / n)) (n * INR k) = a ^ k.
Proof.
  intros Ha Hn.
  rewrite (pow_positive_base a (1 / n) Ha).
  rewrite pow_positive_base by (unfold Rpower; apply exp_pos).
  rewrite Rpower_mult.
  replace (1 / n * (n * INR k)) with (INR k) by (field; exact Hn).
  apply Rpower_pow. exact Ha.
Qed.

End Powers.

(** ** Properties of the rate conversions *)

Section RateProperties.

Import CDIService.
Local Open Scope R_scope.

(** X7.  Monthly and daily rates compound back to the annual rate: twelve
    months at the monthly rate, like 252 business days at the daily rate,
    multiply a capital by [1 + annual / 100]. *)
Theorem monthly_rate_compounds (cdi : R) :
  -100 < cdi ->
  JSMath.pow (1 + annualToMonthly cdi / 100) 12 = 1 + cdi / 100 /\
  JSMath.pow (1 + annualToDaily cdi / 100) 252 = 1 + cdi / 100.
Proof.
  intro H. unfold annualToMonthly, annualToDaily, BUSINESS_DAYS_PER_YEAR.
  split.
  - replace (1 + (JSMath.pow (1 + cdi / 100) (1 / 12) - 1) * 100 / 100)
      with (JSMath.pow (1 + cdi / 100) (1 / 12)) by field.
    apply pow_root_then_power; lra.
  - replace (1 + (JSMath.pow (1 + cdi / 100) (1 / 252) - 1) * 100 / 100)
      with (JSMath.pow (1 + cdi / 100) (1 / 252)) by field.
    apply pow_root_then_power; lra.
Qed.

Lemma monthly_rate_compounds_witness :
  JSMath.pow (1 + annualToMonthly 14.90 / 100) 12 = 1 + 14.90 / 100.
Proof.
  assert (H : -100 < 14.90) by lra.
  exact (proj1 (monthly_rate_compounds 14.90 H)).
Defined.

(** X8.  For a positive annual rate the daily rate is positive and smaller
    than the monthly rate, which is smaller than the annual rate; and the
    conversions keep the order of two annual rates. *)
Theorem rate_conversions_ordered :
  (forall r, 0 < r ->
     0 < annualToDaily r < annualToMonthly r /\ annualToMonthly r < r) /\
  (forall r1 r2, -100 < r1 -> r1 < r2 ->
     annualToDaily r1 < annualToDaily r2 /\
     annualToMonthly r1 < annualToMonthly r2).
Proof.
  split.
  - intros r Hr. unfold annualToDaily, annualToMonthly,
      BUSINESS_DAYS_PER_YEAR.
    rewrite !pow_positive_base by lra.
    assert (Ha : 1 < 1 + r / 100) by lra.
    pose proof (Rpower_lt (1 + r / 100) 0 (1 / 252) Ha ltac:(lra)) as H1.
    pose proof (Rpower_lt (1 + r / 100) (1 / 252) (1 / 12) Ha ltac:(lra))
      as H2.
    pose proof (Rpower_lt (1 + r / 100) (1 / 12) 1 Ha ltac:(lra)) as H3.
    rewrite Rpower_O in H1 by lra. rewrite Rpower_1 in H3 by lra.
    repeat split; lra.
  - intros r1 r2 H1 H12. unfold annualToDaily, annualToMonthly,
      BUSINESS_DAYS_PER_YEAR.
    rewrite !pow_positive_base by lra.
    pose proof (Rlt_Rpower_l (1 + r1 / 100) (1 + r2 / 100) (1 / 252)
                  ltac:(lra) ltac:(lra)) as Hd.
    pose proof (Rlt_Rpower_l (1 + r1 / 100) (1 + r2 / 100) (1 / 12)
                  ltac:(lra) ltac:(lra)) as Hm.
    split; lra.
Qed.

Lemma rate_conversions_ordered_witness :
  0 < annualToDaily 14.90 < annualToMonthly 14.90 /\
  annualToDaily 10 < annualToDaily 14.90.
Proof.
  destruct rate_conversions_ordered as [Hsize Horder].
  split.
  - apply Hsize. lra.
  - apply Horder; lra.
Defined.

End RateProperties.

(** ** Regressive taxes *)

Section RegressiveTaxes.

Import TaxCalculator.
Local Open Scope R_scope.

Lemma IOF_TABLE_antitone (k j : nat) :
  (k + j < 30)%nat ->
  nth (k + j) IOF_TABLE JSMath.non_finite
  <= nth k IOF_TABLE JSMath.non_finite.
Proof.
  induction j as [ | j IH]; intro H.
  - rewrite Nat.add_0_r. lra.
  - replace (k + S j)%nat with (S (k + j)) by lia.
    pose proof (IOF_TABLE_decreasing (k + j) ltac:(lia)).
    specialize (IH ltac:(lia)). lra.
Qed.

Lemma getIOFRate_antitone (d1 d2 : Z) :
  (d1 <= d2)%Z -> getIOFRate d2 <= getIOFRate d1.
Proof.
  intro Hle.
  pose proof (getIOFRate_bounds d1) as [_ H1].
  pose proof (getIOFRate_bounds d2) as [H2 H2'].
  destruct (Z_le_gt_dec d1 0) as [Hlo | Hlo].
  - rewrite (getIOFRate_nonpositive d1) by exact Hlo. lra.
  - destruct (Z_lt_le_dec 30 d2) as [Hhi | Hhi].
    + rewrite (getIOFRate_after_30 d2) by exact Hhi.
      apply (getIOFRate_bounds d1).
    + rewrite (getIOFRate_in_table d1), (getIOFRate_in_table d2) by lia.
      replace (Z.to_nat (d2 - 1))
        with (Z.to_nat (d1 - 1) + Z.to_nat (d2 - d1))%nat by lia.
      apply IOF_TABLE_antitone. lia.
Qed.

Lemma getIRRate_antitone (d1 d2 : Z) :
  (d1 <= d2)%Z -> getIRRate d2 <= getIRRate d1.
Proof.
  intro Hle. rewrite !getIRRate_brackets.
  destruct (Z.leb_spec d1 180); destruct (Z.leb_spec d1 360);
    destruct (Z.leb_spec d1 720); destruct (Z.leb_spec d2 180);
    destruct (Z.leb_spec d2 360); destruct (Z.leb_spec d2 720);
    try lia; lra.
Qed.

(** What the two taxes leave of a gain: the IOF takes its share, the IR its
    share of the rest. *)
Lemma gain_after_taxes (g : R) (d : Z) :
  0 <= g ->
  g - calculateIOF g d - calculateIR g (calculateIOF g d) d
  = g * (1 - getIOFRate d / 100) * (1 - getIRRate d / 100).
Proof.
  intro Hg.
  pose proof (getIOFRate_bounds d) as [Hr0 Hr96].
  unfold calculateIOF.
  destruct (Rle_dec g 0) as [Hle | Hgt].
  - assert (g = 0) by lra. subst g.
    unfold calculateIR.
    destruct (Rle_dec (0 - 0) 0) as [_ | Hn]; [ring | lra].
  - unfold calculateIR.
    destruct (Rle_dec (g - g * (getIOFRate d / 100)) 0) as [Hbase | Hbase].
    + exfalso. assert (0 < g) by lra.
      assert (0 < g * (1 - getIOFRate d / 100))
        by (apply Rmult_lt_0_compat; lra).
      lra.
    + field.
Qed.

Lemma calculateIOF_nonneg (g : R) (d : Z) : 0 <= calculateIOF g d.
Proof.
  unfold calculateIOF. destruct (Rle_dec g 0) as [Hle | Hgt]; [lra | ].
  pose proof (getIOFRate_bounds d) as [Hr0 _].
  apply Rmult_le_pos; lra.
Qed.

(** The share of a gain that is left grows with the holding period. *)
Lemma kept_share_monotone (d1 d2 : Z) :
  (d1 <= d2)%Z ->
  0 <= (1 - getIOFRate d1 / 100) * (1 - getIRRate d1 / 100)
    <= (1 - getIOFRate d2 / 100) * (1 - getIRRate d2 / 100).
Proof.
  intro Hle.
  pose proof (getIOFRate_antitone d1 d2 Hle) as Hiof.
  pose proof (getIRRate_antitone d1 d2 Hle) as Hir.
  pose proof (getIOFRate_bounds d1) as [? ?].
  pose proof (getIOFRate_bounds d2) as [? ?].
  pose proof (getIRRate_bounds d1) as [? ?].
  pose proof (getIRRate_bounds d2) as [? ?].
  split.
  - apply Rmult_le_pos; lra.
  - apply Rmult_le_compat; lra.
Qed.

(** X9.  Both tax rates are regressive: a longer holding period never has a
    higher IOF rate or IR rate. *)
Theorem rates_are_regressive (d1 d2 : Z) :
  (d1 <= d2)%Z ->
  getIOFRate d2 <= getIOFRate d1 /\ getIRRate d2 <= getIRRate d1.
Proof.
  intro Hle. split;
    [apply getIOFRate_antitone | apply getIRRate_antitone]; exact Hle.
Qed.

Lemma rates_are_regressive_witness :
  getIOFRate 20 <= getIOFRate 10 /\ getIRRate 400 <= getIRRate 100.
Proof.
  split.
  - apply (rates_are_regressive 10 20). lia.
  - apply (rates_are_regressive 100 400). lia.
Defined.

(** X10.  On the same gain, holding longer never costs more tax: the IOF
    plus the IR computed for the longer period are at most those for the
    shorter one, and what is left of the gain is the gain times
    [(1 - IOF rate) * (1 - IR rate)]. *)
Theorem tax_falls_with_holding (g : R) (d1 d2 : Z) :
  0 <= g -> (d1 <= d2)%Z ->
  calculateIOF g d2 + calculateIR g (calculateIOF g d2) d2
  <= calculateIOF g d1 + calculateIR g (calculateIOF g d1) d1 /\
  g - calculateIOF g d2 - calculateIR g (calculateIOF g d2) d2
  = g * (1 - getIOFRate d2 / 100) * (1 - getIRRate d2 / 100).
Proof.
  intros Hg Hle.
  pose proof (gain_after_taxes g d1 Hg) as H1.
  pose proof (gain_after_taxes g d2 Hg) as H2.
  pose proof (kept_share_monotone d1 d2 Hle) as [Hk0 Hk].
  split; [ | exact H2].
  assert (Hmul :
    g * ((1 - getIOFRate d1 / 100) * (1 - getIRRate d1 / 100))
    <= g * ((1 - getIOFRate d2 / 100) * (1 - getIRRate d2 / 100)))
    by (apply Rmult_le_compat_l; assumption).
  lra.
Qed.

Lemma tax_falls_with_holding_witness :
  calculateIOF 1000 400 + calculateIR 1000 (calculateIOF 1000 400) 400
  <= calculateIOF 1000 10 + calculateIR 1000 (calculateIOF 1000 10) 10.
Proof.
  apply (tax_falls_with_holding 1000 10 400); [lra | lia].
Defined.

End RegressiveTaxes.

(** ** More on one valuation *)

Section ValuationLemmas.

Import TaxCalculator InvestmentCalculator.
Local Open Scope R_scope.

(** The daily rate of a rate that is not negative is not negative. *)
Lemma annualToDaily_nonneg (cdi : R) :
  0 <= cdi -> 0 <= CDIService.annualToDaily cdi.
Proof.
  intro H. unfold CDIService.annualToDaily, BUSINESS_DAYS_PER_YEAR.
  rewrite pow_positive_base by lra.
  pose proof (Rpower_at_least_one (1 + cdi / 100) (1 / 252)
                ltac:(lra) ltac:(lra)).
  lra.
Qed.

(** The factor by which a position grows over [bd] business days. *)
Lemma growth_factor_monotone (cdi pct : R) (bd1 bd2 : Z) :
  0 <= cdi -> 0 <= pct -> (0 <= bd1 <= bd2)%Z ->
  1 <= JSMath.pow (1 + CDIService.annualToDaily cdi / 100 * (pct / 100))
         (IZR bd1)
    <= JSMath.pow (1 + CDIService.annualToDaily cdi / 100 * (pct / 100))
         (IZR bd2).
Proof.
  intros Hcdi Hpct Hbd.
  pose proof (annualToDaily_nonneg cdi Hcdi) as Hd.
  assert (He : 0 <= CDIService.annualToDaily cdi / 100 * (pct / 100))
    by (apply Rmult_le_pos; lra).
  rewrite !pow_positive_base by lra.
  split.
  - apply Rpower_at_least_one; [lra | apply IZR_le; lia].
  - apply Rpower_exponent_le; [lra | apply IZR_le; lia].
Qed.

Lemma getCalendarDays_monotone (s e1 e2 : Date) :
  (e1 <= e2)%Z ->
  (BusinessDaysCalculator.getCalendarDays s e1
   <= BusinessDaysCalculator.getCalendarDays s e2)%Z.
Proof.
  intro H. rewrite !getCalendarDays_days.
  pose proof (Day_monotone e1 e2 H). lia.
Qed.

(** The net value of a position as principal plus what the taxes leave of
    the gain. *)
Lemma netValue_of_gain (inv : Investment) (currentDate : Date) (cdi : R) :
  let c := calculate inv currentDate cdi in
  0 <= grossReturn c ->
  netValue c =
    principal inv
    + grossReturn c *
      (if isExemptFromIR inv then 1
       else (1 - getIOFRate (daysInvested c) / 100)
            * (1 - getIRRate (daysInvested c) / 100)).
Proof.
  intro c. subst c. rewrite calculate_fields. cbv zeta.
  cbn [grossReturn netValue daysInvested].
  set (d := BusinessDaysCalculator.getCalendarDays _ _).
  set (gv := principal inv * _).
  intro Hg.
  destruct (isExemptFromIR inv); [ring | ].
  pose proof (gain_after_taxes (gv - principal inv) d Hg) as Hkept.
  lra.
Qed.

End ValuationLemmas.

Section MoreValuationProperties.

Import TaxCalculator InvestmentCalculator.
Local Open Scope R_scope.

(** X11.  For a reference rate of -100% or more (where every power the
    valuation takes has a numeric result), taxes are never negative, so the
    net value never exceeds the gross value; and on a loss (a gross return
    of 0 or less) no tax is withheld at all: the net value is the gross
    value. *)
Theorem taxes_never_negative
    (inv : Investment) (currentDate : Date) (cdi : R) :
  -100 <= cdi ->
  let c := calculate inv currentDate cdi in
  0 <= iofAmount c /\ 0 <= irAmount c /\ netValue c <= grossValue c /\
  (grossReturn c <= 0 ->
   iofAmount c = 0 /\ irAmount c = 0 /\ netValue c = grossValue c).
Proof.
  intros _ c. subst c. rewrite calculate_fields. cbv zeta.
  cbn [grossReturn grossValue iofAmount irAmount netValue].
  set (d := BusinessDaysCalculator.getCalendarDays _ _).
  set (gv := principal inv * _).
  destruct (isExemptFromIR inv).
  - repeat split; lra.
  - pose proof (calculateIOF_nonneg (gv - principal inv) d) as Hiof.
    pose proof (calculateIR_bounds (gv - principal inv)
                  (calculateIOF (gv - principal inv) d) d) as [Hir _].
    split; [exact Hiof | ]. split; [exact Hir | ]. split; [lra | ].
    intro Hloss.
    assert (Hiof0 : calculateIOF (gv - principal inv) d = 0).
    { unfold calculateIOF.
      destruct (Rle_dec (gv - principal inv) 0); [reflexivity | lra]. }
    rewrite Hiof0.
    assert (Hir0 : calculateIR (gv - principal inv) 0 d = 0).
    { unfold calculateIR.
      destruct (Rle_dec (gv - principal inv - 0) 0); [reflexivity | lra]. }
    rewrite Hir0. repeat split; lra.
Qed.

Lemma position_keeps_principal
    (inv : Investment) (currentDate : Date) (cdi : R) :
  0 <= principal inv -> 0 <= cdi -> 0 <= cdiPercentage inv ->
  let c := calculate inv currentDate cdi in
  principal inv <= netValue c /\ netValue c <= grossValue c /\
  (0 <= businessDays c <= daysInvested c)%Z.
Proof.
  intros Hp Hcdi Hpct c.
  assert (Hd : (0 <= daysInvested c)%Z).
  { subst c. rewrite calculate_fields. apply getCalendarDays_nonneg. }
  assert (Hbd : (0 <= businessDays c <= daysInvested c)%Z).
  { subst c. rewrite calculate_fields in *. cbv zeta in *.
    cbn [businessDays daysInvested] in *.
    apply estimateBusinessDays_bounds. exact Hd. }
  assert (Hg : 0 <= grossReturn c).
  { subst c. rewrite calculate_fields in *. cbv zeta in *.
    cbn [grossReturn businessDays daysInvested] in *.
    pose proof (growth_factor_monotone cdi (cdiPercentage inv) 0 _
                  Hcdi Hpct (conj (Z.le_refl 0) (proj1 Hbd))) as [_ Hm].
    rewrite pow_exponent_zero in Hm.
    match goal with
    | |- 0 <= principal inv * ?m - principal inv =>
        assert (principal inv * 1 <= principal inv * m)
          by (apply Rmult_le_compat_l; assumption)
    end.
    lra. }
  pose proof (netValue_of_gain inv currentDate cdi Hg) as Hnet.
  fold c in Hnet.
  assert (Hshare :
    0 <= (if isExemptFromIR inv then 1
          else (1 - getIOFRate (daysInvested c) / 100)
               * (1 - getIRRate (daysInvested c) / 100)) <= 1).
  { destruct (isExemptFromIR inv); [lra | ].
    pose proof (getIOFRate_bounds (daysInvested c)) as [? ?].
    pose proof (getIRRate_bounds (daysInvested c)) as [? ?].
    split; [apply Rmult_le_pos; lra | ].
    rewrite <- (Rmult_1_l 1) at 3. apply Rmult_le_compat; lra. }
  set (share := if isExemptFromIR inv then _ else _) in *.
  assert (Hgv : grossValue c = principal inv + grossReturn c).
  { subst c. rewrite calculate_fields. cbv zeta.
    cbn [grossValue grossReturn]. ring. }
  assert (0 <= grossReturn c * share) by (apply Rmult_le_pos; lra).
  assert (grossReturn c * share <= grossReturn c * 1)
    by (apply Rmult_le_compat_l; lra).
  repeat split; try lra; apply Hbd.
Qed.

Lemma taxes_never_negative_witness :
  let c := calculate Scenario.cdb (Scenario.dayAt 0) Scenario.cdiAnnual in
  iofAmount c = 0 /\ irAmount c = 0 /\ netValue c = grossValue c.
Proof.
  intro c.
  assert (Hloss : grossReturn c <= 0).
  { subst c. rewrite calculate_fields. cbv zeta. cbn [grossReturn].
    rewrite getCalendarDays_not_after by reflexivity.
    rewrite estimateBusinessDays_zero, pow_exponent_zero. lra. }
  assert (Hcdi : -100 <= Scenario.cdiAnnual)
    by (unfold Scenario.cdiAnnual; lra).
  destruct (taxes_never_negative Scenario.cdb (Scenario.dayAt 0)
              Scenario.cdiAnnual Hcdi) as (_ & _ & _ & Hzero).
  exact (Hzero Hloss).
Defined.

(** X12.  A position with a principal, a CDI and a CDI percentage that are
    not negative never loses value: the gross and the net value are at least
    the principal, at every date; and the business days counted lie between
    0 and the calendar days. *)
Theorem wellformed_position_keeps_principal
    (inv : Investment) (currentDate : Date) (cdi : R) :
  0 <= principal inv -> 0 <= cdi -> 0 <= cdiPercentage inv ->
  let c := calculate inv currentDate cdi in
  principal inv <= netValue c /\ netValue c <= grossValue c /\
  (0 <= businessDays c <= daysInvested c)%Z.
Proof. exact (position_keeps_principal inv currentDate cdi). Qed.

Lemma wellformed_position_keeps_principal_witness :
  let c := calculate Scenario.cdb (Scenario.dayAt 100) Scenario.cdiAnnual in
  principal Scenario.cdb <= netValue c /\ netValue c <= grossValue c.
Proof.
  intro c.
  assert (Hp : 0 <= principal Scenario.cdb)
    by (change (principal Scenario.cdb) with 10000; lra).
  assert (Hcdi : 0 <= Scenario.cdiAnnual)
    by (unfold Scenario.cdiAnnual; lra).
  assert (Hpct : 0 <= cdiPercentage Scenario.cdb)
    by (change (cdiPercentage Scenario.cdb) with 100; lra).
  destruct (wellformed_position_keeps_principal Scenario.cdb
              (Scenario.dayAt 100) Scenario.cdiAnnual Hp Hcdi Hpct)
    as (H1 & H2 & _).
  split; assumption.
Defined.

(** X13.  A position at 100% of the CDI valued a whole number [k] of
    365-day years after the deposit counts [252 * k] business days and has
    grown by exactly the annual rate, compounded [k] times:
    [grossValue = principal * (1 + cdi / 100) ^ k]. *)
Theorem whole_years_growth
    (inv : Investment) (currentDate : Date) (cdi : R) (k : nat) :
  cdiPercentage inv = 100 -> -100 < cdi ->
  BusinessDaysCalculator.getCalendarDays (depositDate inv) currentDate
  = (365 * Z.of_nat k)%Z ->
  let c := calculate inv currentDate cdi in
  businessDays c = (252 * Z.of_nat k)%Z /\
  grossValue c = principal inv * (1 + cdi / 100) ^ k.
Proof.
  intros Hpct Hcdi Hdays c. subst c. rewrite calculate_fields. cbv zeta.
  cbn [businessDays grossValue].
  rewrite Hdays, Hpct, estimateBusinessDays_years.
  split; [reflexivity | ].
  f_equal.
  unfold CDIService.annualToDaily, BUSINESS_DAYS_PER_YEAR.
  replace (1 + (JSMath.pow (1 + cdi / 100) (1 / 252) - 1) * 100 / 100
               * (100 / 100))
    with (JSMath.pow (1 + cdi / 100) (1 / 252)) by field.
  rewrite mult_IZR, <- INR_IZR_INZ.
  apply pow_root_multiple; lra.
Qed.

Lemma whole_years_growth_witness :
  let c :=
    calculate Scenario.cdb (Scenario.dayAt 730) Scenario.cdiAnnual in
  businessDays c = 504%Z /\
  grossValue c = 10000 * (1 + 14.90 / 100) ^ 2.
Proof.
  assert (Hdays :
    BusinessDaysCalculator.getCalendarDays (depositDate Scenario.cdb)
      (Scenario.dayAt 730) = (365 * Z.of_nat 2)%Z)
    by (rewrite getCalendarDays_days; reflexivity).
  assert (Hcdi : -100 < Scenario.cdiAnnual)
    by (unfold Scenario.cdiAnnual; lra).
  exact (whole_years_growth Scenario.cdb (Scenario.dayAt 730)
           Scenario.cdiAnnual 2 eq_refl Hcdi Hdays).
Defined.

(** X14.  Waiting never reduces the value of a position whose principal,
    CDI and CDI percentage are not negative: at a later valuation date the
    gross value and the net value are at least what they were. *)
Theorem value_grows_with_time
    (inv : Investment) (date1 date2 : Date) (cdi : R) :
  0 <= principal inv -> 0 <= cdi -> 0 <= cdiPercentage inv ->
  (date1 <= date2)%Z ->
  grossValue (calculate inv date1 cdi) <= grossValue (calculate inv date2 cdi)
  /\ netValue (calculate inv date1 cdi) <= netValue (calculate inv date2 cdi).
Proof.
  intros Hp Hcdi Hpct Hdates.
  set (c1 := calculate inv date1 cdi). set (c2 := calculate inv date2 cdi).
  assert (Hd : (0 <= daysInvested c1 <= daysInvested c2)%Z).
  { subst c1 c2. rewrite !calculate_fields. cbv zeta. cbn [daysInvested].
    split; [apply getCalendarDays_nonneg | ].
    apply getCalendarDays_monotone. exact Hdates. }
  assert (Hg : 0 <= grossReturn c1 <= grossReturn c2).
  { subst c1 c2. rewrite !calculate_fields in *. cbv zeta in *.
    cbn [grossReturn daysInvested] in *.
    set (d1 := BusinessDaysCalculator.getCalendarDays _ date1) in *.
    set (d2 := BusinessDaysCalculator.getCalendarDays _ date2) in *.
    pose proof (estimateBusinessDays_bounds d1 (proj1 Hd)) as [Hb1 _].
    pose proof (estimateBusinessDays_monotone d1 d2 (proj2 Hd)) as Hb12.
    pose proof (growth_factor_monotone cdi (cdiPercentage inv) _ _
                  Hcdi Hpct (conj Hb1 Hb12)) as [Hm1 Hm12].
    set (m1 := JSMath.pow _ (IZR (BusinessDaysCalculator.estimateBusinessDays
                                    d1))) in *.
    set (m2 := JSMath.pow _ (IZR (BusinessDaysCalculator.estimateBusinessDays
                                    d2))) in *.
    assert (principal inv * 1 <= principal inv * m1)
      by (apply Rmult_le_compat_l; assumption).
    assert (principal inv * m1 <= principal inv * m2)
      by (apply Rmult_le_compat_l; assumption).
    lra. }
  assert (Hgv : forall d, grossValue (calculate inv d cdi)
                          = principal inv + grossReturn (calculate inv d cdi)).
  { intro d. rewrite calculate_fields. cbv zeta.
    cbn [grossValue grossReturn]. ring. }
  split.
  - pose proof (Hgv date1) as Hgv1. pose proof (Hgv date2) as Hgv2.
    fold c1 in Hgv1. fold c2 in Hgv2. lra.
  - pose proof (netValue_of_gain inv date1 cdi (proj1 Hg)) as Hn1.
    pose proof (netValue_of_gain inv date2 cdi ltac:(fold c2; lra)) as Hn2.
    fold c1 in Hn1. fold c2 in Hn2. rewrite Hn1, Hn2.
    destruct (isExemptFromIR inv); [lra | ].
    pose proof (kept_share_monotone _ _ (proj2 Hd)) as [Hs0 Hs12].
    assert (grossReturn c1 * ((1 - getIOFRate (daysInvested c1) / 100)
                              * (1 - getIRRate (daysInvested c1) / 100))
            <= grossReturn c2 * ((1 - getIOFRate (daysInvested c2) / 100)
                                 * (1 - getIRRate (daysInvested c2) / 100)))
      by (apply Rmult_le_compat; lra).
    lra.
Qed.

Lemma value_grows_with_time_witness :
  netValue (calculate Scenario.cdb (Scenario.dayAt 100) Scenario.cdiAnnual)
  <= netValue (calculate Scenario.cdb (Scenario.dayAt 200)
                 Scenario.cdiAnnual).
Proof.
  assert (Hp : 0 <= principal Scenario.cdb)
    by (change (principal Scenario.cdb) with 10000; lra).
  assert (Hcdi : 0 <= Scenario.cdiAnnual)
    by (unfold Scenario.cdiAnnual; lra).
  assert (Hpct : 0 <= cdiPercentage Scenario.cdb)
    by (change (cdiPercentage Scenario.cdb) with 100; lra).
  assert (Hdates : (Scenario.dayAt 100 <= Scenario.dayAt 200)%Z)
    by (vm_compute; discriminate).
  exact (proj2 (value_grows_with_time Scenario.cdb (Scenario.dayAt 100)
                  (Scenario.dayAt 200) Scenario.cdiAnnual Hp Hcdi Hpct
                  Hdates)).
Defined.

(** X15.  From day 31 on only the IR is withheld from a taxed position with
    a gain: the IOF amount is 0, the IR amount is the gross return times the
    IR rate, and at least 77.5% of the gross return is kept. *)
Theorem after_30_days_only_IR
    (inv : Investment) (currentDate : Date) (cdi : R) :
  let c := calculate inv currentDate cdi in
  isExemptFromIR inv = false ->
  (30 < daysInvested c)%Z ->
  0 <= grossReturn c ->
  iofAmount c = 0 /\
  irAmount c = grossReturn c * (irRate c / 100) /\
  0.775 * grossReturn c <= netReturn c.
Proof.
  intro c. subst c. rewrite calculate_fields. cbv zeta.
  cbn [iofAmount irAmount irRate grossReturn netReturn daysInvested].
  set (d := BusinessDaysCalculator.getCalendarDays _ _).
  set (gv := principal inv * _).
  intros Hex Hdays Hg. rewrite Hex.
  rewrite calculateIOF_after_30 by exact Hdays.
  pose proof (getIRRate_bounds d) as [Hr15 Hr225].
  assert (Hir : calculateIR (gv - principal inv) 0 d
                = (gv - principal inv) * (getIRRate d / 100)).
  { unfold calculateIR.
    destruct (Rle_dec (gv - principal inv - 0) 0) as [Hle | Hgt].
    - assert (Hzero : gv - principal inv = 0) by lra.
      rewrite Hzero. ring.
    - ring. }
  rewrite Hir.
  split; [reflexivity | ]. split; [reflexivity | ].
  assert ((gv - principal inv) * (getIRRate d / 100)
          <= (gv - principal inv) * 0.225)
    by (apply Rmult_le_compat_l; lra).
  lra.
Qed.

Lemma after_30_days_only_IR_witness :
  let c := calculate Scenario.cdb (Scenario.dayAt 365) Scenario.cdiAnnual in
  iofAmount c = 0 /\ 0.775 * grossReturn c <= netReturn c.
Proof.
  intro c.
  assert (Hdays : (30 < daysInvested c)%Z).
  { subst c. rewrite calculate_fields. cbv zeta. cbn [daysInvested].
    rewrite cdb_one_year_days. lia. }
  assert (Hg : 0 <= grossReturn c).
  { subst c. rewrite grossReturn_is_gain, cdb_one_year_gross.
    change (principal Scenario.cdb) with 10000. lra. }
  destruct (after_30_days_only_IR Scenario.cdb (Scenario.dayAt 365)
              Scenario.cdiAnnual eq_refl Hdays Hg) as (H1 & _ & H3).
  split; assumption.
Defined.

End MoreValuationProperties.

(** ** More on obligations *)

Section ObligationLemmas.

Import ExpenseManager FinancialEngine Projection.
Local Open Scope R_scope.

Lemma pendingOf_eq (e : Expense) :
  pendingOf e =
    if isPaid e then 0
    else monthlyAmount e
         * IZR (Z.max 0 (installments e - currentInstallment e + 1)).
Proof.
  unfold pendingOf, getTotalPendingExpenses. cbn [fold_left].
  destruct (isPaid e); ring.
Qed.

Lemma getTotalPendingExpenses_from (expenses : list Expense) (total : R) :
  fold_left
    (fun total expense =>
       if isPaid expense then total
       else total + monthlyAmount expense
                    * IZR (Z.max 0 (installments expense
                                    - currentInstallment expense + 1)))
    expenses total
  = total + fold_right Rplus 0 (map pendingOf expenses).
Proof.
  revert total. induction expenses as [ | e rest IH]; intro total.
  - cbn [fold_left map fold_right]. ring.
  - cbn [fold_left map fold_right]. rewrite IH, pendingOf_eq.
    destruct (isPaid e); ring.
Qed.

Lemma getTotalPendingExpenses_sum (expenses : list Expense) :
  getTotalPendingExpenses expenses
  = fold_right Rplus 0 (map pendingOf expenses).
Proof.
  unfold getTotalPendingExpenses.
  rewrite getTotalPendingExpenses_from. ring.
Qed.

(** The charge of an unpaid expense without a deferred payment date. *)
Lemma charge_undeferred (e : Expense) (t : Date) :
  isPaid e = false -> paymentDate e = None ->
  getMonthlyExpenses [e] t =
    if ((0 <=? getMonthsDifference (startDate e) t)%Z
        && (getMonthsDifference (startDate e) t <? installments e)%Z)%bool
    then monthlyAmount e else 0.
Proof.
  intros Hpaid Hdef.
  unfold getMonthlyExpenses. cbn [fold_left].
  unfold monthlyExpenses_step. rewrite Hpaid, Hdef.
  destruct (_ && _)%bool; ring.
Qed.

(** Paid expenses are never charged. *)
Lemma getMonthlyExpenses_all_paid (expenses : list Expense) (t : Date) :
  Forall (fun e => isPaid e = true) expenses ->
  getMonthlyExpenses expenses t = 0.
Proof.
  intro Hall. unfold getMonthlyExpenses.
  induction Hall as [ | e rest He _ IH]; [reflexivity | ].
  cbn [fold_left]. unfold monthlyExpenses_step at 2. rewrite He. exact IH.
Qed.

(** Month [i] of a projection lies [i] months after its start, when the
    start is on a day every month has. *)
Lemma months_to_target (other start : Date) (i : Z) :
  (getDate start <= 28)%Z ->
  getMonthsDifference other (targetDateAt start i)
  = (getMonthsDifference other start + i)%Z.
Proof.
  intro Hd. unfold getMonthsDifference, targetDateAt.
  destruct (setMonth_fields start (getMonth start + i) Hd)
    as (Hy & Hm & _).
  rewrite Hy, Hm.
  pose proof (Z.div_mod (getMonth start + i) 12 ltac:(lia)).
  lia.
Qed.

Lemma getMonthsDifference_self (t : Date) : getMonthsDifference t t = 0%Z.
Proof. unfold getMonthsDifference. lia. Qed.

(** What has been charged for one unpaid, undeferred expense that starts in
    the first month of the projection, over the first [m] months. *)
Lemma cumulativeExpenses_single (start : Date) (e : Expense) (m : nat) :
  (getDate start <= 28)%Z ->
  isPaid e = false -> paymentDate e = None ->
  getMonthsDifference (startDate e) start = 0%Z ->
  (0 <= installments e)%Z ->
  cumulativeExpenses start [e] m
  = monthlyAmount e * IZR (Z.min (Z.of_nat m) (installments e)).
Proof.
  intros Hd Hpaid Hdef Hsame Hn.
  induction m as [ | m IH].
  - unfold cumulativeExpenses. cbn [counting seq map fold_left].
    rewrite Z.min_l by lia. cbn [Z.of_nat]. ring.
  - rewrite cumulativeExpenses_last, IH.
    rewrite charge_undeferred by assumption.
    rewrite months_to_target, Hsame, Z.add_0_l by exact Hd.
    destruct (Z.leb_spec 0 (Z.of_nat m)) as [_ | Hneg]; [ | lia].
    destruct (Z.ltb_spec (Z.of_nat m) (installments e)) as [Hlt | Hge];
      cbn [andb].
    + rewrite !Z.min_l by lia.
      rewrite Nat2Z.inj_succ, succ_IZR. ring.
    + rewrite !Z.min_r by lia. ring.
Qed.

End ObligationLemmas.

Section ObligationProperties.

Import ExpenseManager FinancialEngine Projection.
Local Open Scope R_scope.

(** X16.  Conservation: for expenses as the entry form creates them (first
    installment current, at least one installment, monthly amount = total /
    installments), the pending total is the sum of the total amounts of the
    expenses that are not paid. *)
Theorem pending_is_unpaid_total (expenses : list Expense) :
  Forall
    (fun e =>
       currentInstallment e = 1%Z /\ (1 <= installments e)%Z /\
       monthlyAmount e = totalAmount e / IZR (installments e))
    expenses ->
  getTotalPendingExpenses expenses
  = fold_right Rplus 0
      (map (fun e => if isPaid e then 0 else totalAmount e) expenses).
Proof.
  intro Hall. rewrite getTotalPendingExpenses_sum.
  induction Hall as [ | e rest (Hcur & Hn & Hm) _ IH]; [reflexivity | ].
  cbn [map fold_right]. rewrite IH. f_equal.
  rewrite pendingOf_eq. destruct (isPaid e); [reflexivity | ].
  rewrite Hcur, Hm.
  replace (installments e - 1 + 1)%Z with (installments e) by ring.
  rewrite Z.max_r by lia.
  assert (IZR (installments e) <> 0).
  { apply not_0_IZR. lia. }
  field. assumption.
Qed.

Lemma pending_is_unpaid_total_witness :
  getTotalPendingExpenses [Scenario.loan] = 1200.
Proof.
  assert (Hform :
    Forall
      (fun e =>
         currentInstallment e = 1%Z /\ (1 <= installments e)%Z /\
         monthlyAmount e = totalAmount e / IZR (installments e))
      [Scenario.loan]).
  { constructor; [ | constructor].
    split; [reflexivity | ]. split; [cbn; lia | ].
    cbn [monthlyAmount totalAmount installments Scenario.loan]. lra. }
  rewrite (pending_is_unpaid_total [Scenario.loan] Hform).
  cbn [map fold_right isPaid totalAmount Scenario.loan]. lra.
Defined.

(** X17.  An expense that is paid, or whose current installment is past the
    last one, adds nothing to the pending total; and with monthly amounts
    that are not negative the pending total is not negative. *)
Theorem pending_edge_cases :
  (forall e expenses,
     isPaid e = true \/ (installments e < currentInstallment e)%Z ->
     getTotalPendingExpenses (e :: expenses)
     = getTotalPendingExpenses expenses) /\
  (forall expenses,
     Forall (fun e => 0 <= monthlyAmount e) expenses ->
     0 <= getTotalPendingExpenses expenses).
Proof.
  split.
  - intros e expenses Hcase.
    rewrite !getTotalPendingExpenses_sum. cbn [map fold_right].
    rewrite pendingOf_eq.
    destruct Hcase as [Hpaid | Hpast].
    + rewrite Hpaid. ring.
    + destruct (isPaid e); [ring | ].
      rewrite Z.max_l by lia. ring.
  - intros expenses Hall. rewrite getTotalPendingExpenses_sum.
    induction Hall as [ | e rest He _ IH]; cbn [map fold_right]; [lra | ].
    rewrite pendingOf_eq.
    destruct (isPaid e); [lra | ].
    assert (0 <= IZR (Z.max 0 (installments e - currentInstallment e + 1)))
      by (apply IZR_le; lia).
    assert (0 <= monthlyAmount e
                 * IZR (Z.max 0 (installments e - currentInstallment e + 1)))
      by (apply Rmult_le_pos; assumption).
    lra.
Qed.

Lemma pending_edge_cases_witness :
  getTotalPendingExpenses
    [ {| exp_id := "exp-2"; description := "done"; totalAmount := 300;
         installments := 3; currentInstallment := 4; monthlyAmount := 100;
         startDate := Scenario.dayAt 0; category := "other";
         isPaid := false; paymentDate := None |};
      Scenario.loan ]
  = getTotalPendingExpenses [Scenario.loan]
  /\ 0 <= getTotalPendingExpenses [Scenario.loan].
Proof.
  destruct pending_edge_cases as [Hskip Hpos].
  split.
  - apply Hskip. right. cbn. lia.
  - apply Hpos. constructor; [ | constructor].
    cbn [monthlyAmount Scenario.loan]. lra.
Defined.

(** X18.  Remaining installments.  With an installment count that is not
    negative the result lies between 0 and that count.  For an unpaid
    expense: before the start month ([monthsDiff < 0]) every installment
    remains and nothing is charged; from the start month on
    ([0 <= monthsDiff]) [max 0 (installments - monthsDiff)] installments
    remain and, when no deferred payment date is set, the monthly amount is
    charged exactly while installments remain. *)
Theorem remaining_installments_schedule (e : Expense) (t : Date) :
  let monthsDiff := getMonthsDifference (startDate e) t in
  ((0 <= installments e)%Z ->
   (0 <= getRemainingInstallments e t <= installments e)%Z) /\
  (isPaid e = false -> (monthsDiff < 0)%Z ->
   getRemainingInstallments e t = installments e /\
   getMonthlyExpenses [e] t = 0) /\
  (isPaid e = false -> (0 <= monthsDiff)%Z ->
   getRemainingInstallments e t
   = Z.max 0 (installments e - monthsDiff)) /\
  (isPaid e = false -> paymentDate e = None -> (0 <= monthsDiff)%Z ->
   getMonthlyExpenses [e] t =
     if (0 <? getRemainingInstallments e t)%Z then monthlyAmount e else 0).
Proof.
  intro monthsDiff. unfold getRemainingInstallments. fold monthsDiff.
  split; [ | split; [ | split]].
  - intro Hn. destruct (isPaid e); [lia | ].
    destruct (Z.ltb_spec monthsDiff 0); [lia | ].
    destruct (Z.leb_spec (installments e) monthsDiff); lia.
  - intros Hpaid Hmd. rewrite Hpaid.
    destruct (Z.ltb_spec monthsDiff 0); [ | lia].
    split; [reflexivity | ].
    unfold getMonthlyExpenses. cbn [fold_left].
    unfold monthlyExpenses_step. rewrite Hpaid. fold monthsDiff.
    destruct (match paymentDate e with
              | Some p => JSDate.ltb t p
              | None => false
              end); [reflexivity | ].
    destruct (Z.leb_spec 0 monthsDiff); [lia | ]. reflexivity.
  - intros Hpaid Hmd. rewrite Hpaid.
    destruct (Z.ltb_spec monthsDiff 0); [lia | ].
    destruct (Z.leb_spec (installments e) monthsDiff); lia.
  - intros Hpaid Hdef Hmd.
    rewrite charge_undeferred by assumption. fold monthsDiff.
    rewrite Hpaid.
    destruct (Z.ltb_spec monthsDiff 0) as [Hneg | _]; [lia | ].
    destruct (Z.leb_spec 0 monthsDiff) as [_ | Hneg]; [ | lia].
    destruct (Z.leb_spec (installments e) monthsDiff) as [Hover | Hin];
      destruct (Z.ltb_spec monthsDiff (installments e)) as [Hlt | Hge];
      try lia; cbn [andb].
    + reflexivity.
    + destruct (Z.ltb_spec 0 (installments e - monthsDiff)); [ | lia].
      reflexivity.
Qed.

Lemma remaining_installments_schedule_witness :
  (0 <= getRemainingInstallments Scenario.loan (Scenario.dayAt 40) <= 12)%Z
  /\ getRemainingInstallments Scenario.loan (Scenario.dayAt 40) = 11%Z.
Proof.
  destruct (remaining_installments_schedule Scenario.loan
              (Scenario.dayAt 40)) as (Hb & _ & Hrem & _).
  split.
  - apply Hb. cbn. lia.
  - rewrite Hrem; [reflexivity | reflexivity | vm_compute; discriminate].
Defined.

(** X19.  Months of a projection: when the start date is on a day every
    month has (the 28th or before), the date of month index [i] keeps the
    day of the month and lies exactly [i] months further from any other
    date, by the month difference the engine uses. *)
Theorem projection_months_step (other start : Date) (i : Z) :
  (getDate start <= 28)%Z ->
  getDate (targetDateAt start i) = getDate start /\
  getMonthsDifference other (targetDateAt start i)
  = (getMonthsDifference other start + i)%Z.
Proof.
  intro Hd. split.
  - unfold targetDateAt.
    apply (setMonth_fields start (getMonth start + i) Hd).
  - apply months_to_target. exact Hd.
Qed.

Lemma projection_months_step_witness :
  getMonthsDifference (Scenario.dayAt 0)
    (targetDateAt (Scenario.dayAt 20) 14) = 14%Z.
Proof.
  assert (Hd : (getDate (Scenario.dayAt 20) <= 28)%Z)
    by (vm_compute; discriminate).
  rewrite (proj2 (projection_months_step (Scenario.dayAt 0)
                    (Scenario.dayAt 20) 14 Hd)).
  reflexivity.
Defined.

End ObligationProperties.

(** ** More on the projection *)

Section ProjectionLemmas.

Import ExpenseManager FinancialEngine Projection WealthProjection.
Local Open Scope R_scope.

Lemma counting_In (lo j : Z) (n : nat) :
  In j (counting lo n) -> (lo <= j < lo + Z.of_nat n)%Z.
Proof.
  unfold counting. rewrite in_map_iff. intros (k & <- & Hk).
  apply in_seq in Hk. lia.
Qed.

(** A running total over a list, from any starting value. *)
Lemma fold_left_sum {A : Type} (f : A -> R) (l : list A) (a : R) :
  fold_left (fun sum x => sum + f x) l a
  = a + fold_left (fun sum x => sum + f x) l 0.
Proof.
  revert a. induction l as [ | x l IH]; intro a; cbn [fold_left].
  - ring.
  - rewrite IH, (IH (0 + f x)). ring.
Qed.

(** One more month: what was accumulated earns the monthly rate, and one
    contribution is added. *)
Lemma accumulatedSavingsAt_next (s r : R) (n : nat) :
  accumulatedSavingsAt s r (Z.of_nat (S n))
  = accumulatedSavingsAt s r (Z.of_nat n) * (1 + r) + s.
Proof.
  unfold accumulatedSavingsAt.
  rewrite !Nat2Z.id, counting_last, fold_left_app. cbn [fold_left].
  replace (Z.of_nat (S n) - (1 + Z.of_nat n))%Z with 0%Z by lia.
  rewrite pow_exponent_zero.
  assert (Hscale : forall l a,
    (forall j, In j l -> (j <= Z.of_nat n)%Z) ->
    fold_left
      (fun acc j => acc + s * JSMath.pow (1 + r) (IZR (Z.of_nat (S n) - j)))
      l (a * (1 + r))
    = fold_left
        (fun acc j => acc + s * JSMath.pow (1 + r) (IZR (Z.of_nat n - j)))
        l a * (1 + r)).
  { induction l as [ | j l IH]; intros a Hl; cbn [fold_left];
      [reflexivity | ].
    assert (Hj : (j <= Z.of_nat n)%Z) by (apply Hl; left; reflexivity).
    rewrite <- IH by (intros j' Hj'; apply Hl; right; exact Hj').
    f_equal.
    rewrite !pow_nonneg_int by lia.
    replace (Z.to_nat (Z.of_nat (S n) - j))
      with (S (Z.to_nat (Z.of_nat n - j))) by lia.
    cbn [pow]. ring. }
  rewrite <- Hscale.
  - rewrite Rmult_0_l. ring.
  - intros j Hj. apply counting_In in Hj. lia.
Qed.

Lemma accumulatedSavingsAt_start (s r : R) (i : Z) :
  (i <= 0)%Z -> accumulatedSavingsAt s r i = 0.
Proof.
  intro Hi. unfold accumulatedSavingsAt.
  replace (Z.to_nat i) with 0%nat by lia. reflexivity.
Qed.

Lemma accumulatedSavingsAt_closed (s r : R) (n : nat) :
  r * accumulatedSavingsAt s r (Z.of_nat n) = s * ((1 + r) ^ n - 1).
Proof.
  induction n as [ | n IH].
  - rewrite accumulatedSavingsAt_start by (cbn; lia). cbn [pow]. ring.
  - rewrite accumulatedSavingsAt_next.
    replace (r * (accumulatedSavingsAt s r (Z.of_nat n) * (1 + r) + s))
      with (r * accumulatedSavingsAt s r (Z.of_nat n) * (1 + r) + r * s)
      by ring.
    rewrite IH. cbn [pow]. ring.
Qed.

Lemma accumulatedSavingsAt_nonneg (s r : R) (i : Z) :
  0 <= s -> -1 < r -> 0 <= accumulatedSavingsAt s r i.
Proof.
  intros Hs Hr.
  destruct (Z_le_gt_dec i 0) as [Hi | Hi].
  - rewrite accumulatedSavingsAt_start by exact Hi. lra.
  - rewrite <- (Z2Nat.id i) by lia.
    induction (Z.to_nat i) as [ | n IH].
    + rewrite accumulatedSavingsAt_start by (cbn; lia). lra.
    + rewrite accumulatedSavingsAt_next.
      assert (0 <= accumulatedSavingsAt s r (Z.of_nat n) * (1 + r))
        by (apply Rmult_le_pos; lra).
      lra.
Qed.

(** The expenses shown for the period are what the loop has charged. *)
Lemma totalExpensesInPeriod_points
    (start : Date) (investments : list Investment) (expenses : list Expense)
    (cdi s : R) (n : nat) :
  totalExpensesInPeriod
    (map (pointAt start investments expenses cdi s) (counting 0 n))
  = cumulativeExpenses start expenses n.
Proof.
  unfold totalExpensesInPeriod, cumulativeExpenses.
  induction n as [ | n IH]; [reflexivity | ].
  rewrite counting_last, map_app, !fold_left_app, IH.
  reflexivity.
Qed.

Lemma totalReturns_nonneg (projection : list ProjectionResult) :
  Forall (fun p => 0 <= monthlyReturn p) projection ->
  0 <= totalReturns projection.
Proof.
  unfold totalReturns. intro Hall.
  rewrite fold_left_sum.
  induction Hall as [ | p l Hp _ IH]; cbn [fold_left]; [lra | ].
  rewrite fold_left_sum. lra.
Qed.

Lemma cumulativeExpenses_all_paid (start : Date) (expenses : list Expense)
    (n : nat) :
  Forall (fun e => isPaid e = true) expenses ->
  cumulativeExpenses start expenses n = 0.
Proof.
  intro Hall. induction n as [ | n IH]; [reflexivity | ].
  rewrite cumulativeExpenses_last, IH, getMonthlyExpenses_all_paid
    by exact Hall.
  ring.
Qed.

Lemma accumulatedSavingsAt_no_savings (r : R) (i : Z) :
  accumulatedSavingsAt 0 r i = 0.
Proof.
  unfold accumulatedSavingsAt.
  induction (counting 1 (Z.to_nat i)) as [ | j l IH] using rev_ind;
    [reflexivity | ].
  rewrite fold_left_app. cbn [fold_left]. rewrite IH. ring.
Qed.

(** The value of the investments is the sum of their net values. *)
Lemma investmentsValueAt_sum (investments : list Investment) (t : Date)
    (cdi : R) :
  investmentsValueAt investments t cdi
  = fold_right Rplus 0
      (map (fun inv => netValue (InvestmentCalculator.calculate inv t cdi))
         investments).
Proof.
  unfold investmentsValueAt.
  induction investments as [ | inv rest IH]; [reflexivity | ].
  cbn [fold_left map fold_right].
  rewrite fold_left_sum, IH. ring.
Qed.

Lemma principal_sum (investments : list Investment) :
  fold_left (fun sum inv => sum + principal inv) investments 0
  = fold_right Rplus 0 (map principal investments).
Proof.
  induction investments as [ | inv rest IH]; [reflexivity | ].
  cbn [fold_left map fold_right].
  rewrite fold_left_sum, IH. ring.
Qed.

Lemma investmentsValueAt_floor (investments : list Investment) (t : Date)
    (cdi : R) :
  Forall (fun inv => 0 <= principal inv /\ 0 <= cdiPercentage inv)
    investments ->
  0 <= cdi ->
  fold_left (fun sum inv => sum + principal inv) investments 0
  <= investmentsValueAt investments t cdi.
Proof.
  intros Hall Hcdi. rewrite principal_sum, investmentsValueAt_sum.
  induction Hall as [ | inv rest [Hp Hpct] _ IH]; cbn [map fold_right];
    [lra | ].
  pose proof (position_keeps_principal inv t cdi Hp Hcdi Hpct) as [Hnet _].
  lra.
Qed.

End ProjectionLemmas.

Section MoreProjectionProperties.

Import ExpenseManager FinancialEngine Projection WealthProjection.
Local Open Scope R_scope.



(** X21.  The savings accumulated by the inner loop follow the annuity law:
    nothing at month 0; each month what was there earns the monthly
    rate and one contribution is added; hence
    [rate * accumulated_n = savings * ((1 + rate) ^ n - 1)]. *)
Theorem accumulated_savings_annuity (s r : R) (n : nat) :
  accumulatedSavingsAt s r 0 = 0 /\
  accumulatedSavingsAt s r (Z.of_nat (S n))
  = accumulatedSavingsAt s r (Z.of_nat n) * (1 + r) + s /\
  r * accumulatedSavingsAt s r (Z.of_nat n) = s * ((1 + r) ^ n - 1).
Proof.
  split; [reflexivity | ].
  split; [apply accumulatedSavingsAt_next | apply accumulatedSavingsAt_closed].
Qed.

(** X22.  Without monthly savings and with every expense paid, the net
    worth of each point is the value of the investments at its date, and the
    monthly return of each later point is the growth of the net worth since
    the previous point, or 0 when it fell. *)
Theorem projection_of_investments_only
    (start : Date) (investments : list Investment) (expenses : list Expense)
    (months : Z) (cdi : R) :
  Forall (fun e => isPaid e = true) expenses ->
  let res := projectWealth start investments expenses months cdi 0 in
  (forall (i : nat) (p : ProjectionResult),
     nth_error res i = Some p ->
     netWorth p = investmentsValueAt investments (date p) cdi) /\
  (forall (i : nat) (p q : ProjectionResult),
     nth_error res (S i) = Some p -> nth_error res i = Some q ->
     monthlyReturn p = Rmax 0 (netWorth p - netWorth q)).
Proof.
  intros Hpaid res.
  assert (Hwealth : forall i,
    wealthAt start investments expenses cdi 0 i
    = investmentsValueAt investments (targetDateAt start i) cdi).
  { intro i. unfold wealthAt.
    rewrite accumulatedSavingsAt_no_savings,
      cumulativeExpenses_all_paid by exact Hpaid.
    ring. }
  split.
  - intros i p Hp. apply projectWealth_nth in Hp. subst p.
    unfold pointAt. cbn [netWorth date]. apply Hwealth.
  - intros i p q Hp Hq.
    apply projectWealth_nth in Hp. apply projectWealth_nth in Hq. subst p q.
    unfold pointAt. cbn [netWorth monthlyReturn].
    replace (0 <? Z.of_nat (S i))%Z with true
      by (symmetry; apply Z.ltb_lt; lia).
    replace (Z.of_nat (S i) - 1)%Z with (Z.of_nat i) by lia.
    rewrite !Hwealth. f_equal. ring.
Qed.

Lemma projection_of_investments_only_witness :
  exists p,
    nth_error
      (projectWealth (Scenario.dayAt 0) [Scenario.cdb] [] 2
         Scenario.cdiAnnual 0) 1 = Some p /\
    netWorth p = investmentsValueAt [Scenario.cdb] (date p) Scenario.cdiAnnual.
Proof.
  eexists.
  assert (Hp :
    nth_error
      (projectWealth (Scenario.dayAt 0) [Scenario.cdb] [] 2
         Scenario.cdiAnnual 0) 1
    = Some (pointAt (Scenario.dayAt 0) [Scenario.cdb] []
              Scenario.cdiAnnual 0 1))
    by (rewrite projectWealth_points; reflexivity).
  split; [exact Hp | ].
  apply (proj1 (projection_of_investments_only (Scenario.dayAt 0)
                  [Scenario.cdb] [] 2 Scenario.cdiAnnual
                  (Forall_nil _)) 1%nat _ Hp).
Defined.

(** X23.  A floor for the projected net worth: with principals, CDI
    percentages, CDI and monthly savings that are not negative, the net
    worth at index [i] is at least the sum of the principals less the
    expenses charged up to that month. *)
Theorem projection_floor
    (start : Date) (investments : list Investment) (expenses : list Expense)
    (months : Z) (cdi s : R) (i : nat) (p : ProjectionResult) :
  Forall (fun inv => 0 <= principal inv /\ 0 <= cdiPercentage inv)
    investments ->
  0 <= cdi -> 0 <= s ->
  nth_error (projectWealth start investments expenses months cdi s) i
  = Some p ->
  fold_left (fun sum inv => sum + principal inv) investments 0
  - cumulativeExpenses start expenses (S i)
  <= netWorth p.
Proof.
  intros Hall Hcdi Hs Hp. apply projectWealth_nth in Hp. subst p.
  unfold pointAt. cbn [netWorth]. unfold wealthAt.
  replace (Z.to_nat (Z.of_nat i + 1)) with (S i) by lia.
  pose proof (investmentsValueAt_floor investments
                (targetDateAt start (Z.of_nat i)) cdi Hall Hcdi) as Hfloor.
  pose proof (accumulatedSavingsAt_nonneg s (monthlyRate cdi) (Z.of_nat i)
                Hs (monthlyRate_above_minus_one cdi ltac:(lra))) as Hsav.
  lra.
Qed.

Lemma projection_floor_witness :
  exists p,
    nth_error
      (projectWealth (Scenario.dayAt 0) [Scenario.cdb] [Scenario.loan] 2
         Scenario.cdiAnnual 100) 1 = Some p /\
    10000 - cumulativeExpenses (Scenario.dayAt 0) [Scenario.loan] 2
    <= netWorth p.
Proof.
  eexists.
  assert (Hp :
    nth_error
      (projectWealth (Scenario.dayAt 0) [Scenario.cdb] [Scenario.loan] 2
         Scenario.cdiAnnual 100) 1
    = Some (pointAt (Scenario.dayAt 0) [Scenario.cdb] [Scenario.loan]
              Scenario.cdiAnnual 100 1))
    by (rewrite projectWealth_points; reflexivity).
  split; [exact Hp | ].
  assert (Hall :
    Forall (fun inv => 0 <= principal inv /\ 0 <= cdiPercentage inv)
      [Scenario.cdb]).
  { constructor; [ | constructor].
    cbn [principal cdiPercentage Scenario.cdb]. lra. }
  assert (Hcdi : 0 <= Scenario.cdiAnnual)
    by (unfold Scenario.cdiAnnual; lra).
  pose proof (projection_floor (Scenario.dayAt 0) [Scenario.cdb]
                [Scenario.loan] 2 Scenario.cdiAnnual 100 1 _ Hall Hcdi
                ltac:(lra) Hp) as Hfloor.
  cbn [fold_left principal Scenario.cdb] in Hfloor. lra.
Defined.

(** X24.  The figures shown with a projection of a period that is not
    negative: the total of expenses in the period is what the loop charged,
    the final value is the value of the investments at the last date plus
    the accumulated savings less that total of expenses, and the total of
    the monthly returns is not negative. *)
Theorem projection_summary
    (start : Date) (investments : list Investment) (expenses : list Expense)
    (months : Z) (cdi s : R) :
  (0 <= months)%Z ->
  let res := projectWealth start investments expenses months cdi s in
  totalExpensesInPeriod res
  = cumulativeExpenses start expenses (Z.to_nat (months + 1)) /\
  finalValue res
  = investmentsValueAt investments (targetDateAt start months) cdi
    + accumulatedSavingsAt s (CDIService.annualToMonthly cdi / 100) months
    - totalExpensesInPeriod res /\
  0 <= totalReturns res.
Proof.
  intros Hm res. subst res. rewrite projectWealth_points.
  rewrite totalExpensesInPeriod_points.
  split; [reflexivity | ]. split.
  - unfold finalValue, valueAt.
    rewrite length_map, counting_length.
    replace (Z.to_nat (months + 1) - 1)%nat with (Z.to_nat months) by lia.
    rewrite nth_error_map, counting_nth by lia.
    cbn [option_map]. unfold pointAt at 1 2. cbn [totalInvestments].
    rewrite Z.add_0_l, Z2Nat.id by exact Hm.
    destruct (Req_EM_T _ 0) as [Hzero | _].
    + rewrite <- Hzero. unfold wealthAt, monthlyRate. reflexivity.
    + unfold wealthAt, monthlyRate. reflexivity.
  - apply totalReturns_nonneg. apply Forall_forall.
    intros p Hin. apply in_map_iff in Hin as (i & <- & _).
    unfold pointAt. cbn [monthlyReturn]. apply Rmax_l.
Qed.

Lemma projection_summary_witness :
  0 <= totalReturns
         (projectWealth (Scenario.dayAt 0) [Scenario.cdb] [Scenario.loan] 2
            Scenario.cdiAnnual 100).
Proof.
  assert (Hm : (0 <= 2)%Z) by lia.
  exact (proj2 (proj2 (projection_summary (Scenario.dayAt 0) [Scenario.cdb]
                         [Scenario.loan] 2 Scenario.cdiAnnual 100 Hm))).
Defined.

(** X25.  An obligation is charged in full, once: for a projection started on
    the 28th or before, an unpaid expense without a deferred payment date
    that starts in the month of the projection's start is charged
    [monthlyAmount * min (m, installments)] over the first [m] months; so
    when the monthly amount is [total / installments] and the projection
    covers all its installments, the expenses of the period are its total
    amount. *)
Theorem obligation_charged_in_full
    (start : Date) (investments : list Investment) (e : Expense)
    (months : Z) (cdi s : R) :
  (getDate start <= 28)%Z ->
  isPaid e = false -> paymentDate e = None ->
  getMonthsDifference (startDate e) start = 0%Z ->
  (1 <= installments e)%Z ->
  (forall m : nat,
     cumulativeExpenses start [e] m
     = monthlyAmount e * IZR (Z.min (Z.of_nat m) (installments e))) /\
  (monthlyAmount e = totalAmount e / IZR (installments e) ->
   (installments e - 1 <= months)%Z ->
   totalExpensesInPeriod (projectWealth start investments [e] months cdi s)
   = totalAmount e).
Proof.
  intros Hd Hpaid Hdef Hsame Hn.
  split.
  - intro m. apply cumulativeExpenses_single; try assumption. lia.
  - intros Hm Hmonths.
    rewrite projectWealth_points, totalExpensesInPeriod_points.
    rewrite cumulativeExpenses_single by (try assumption; lia).
    rewrite Z.min_r by lia. rewrite Hm.
    assert (IZR (installments e) <> 0) by (apply not_0_IZR; lia).
    field. assumption.
Qed.

Lemma obligation_charged_in_full_witness :
  totalExpensesInPeriod
    (projectWealth (Scenario.dayAt 0) [Scenario.cdb] [Scenario.loan] 24
       Scenario.cdiAnnual 100)
  = 1200.
Proof.
  assert (Hd : (getDate (Scenario.dayAt 0) <= 28)%Z)
    by (vm_compute; discriminate).
  assert (Hn : (1 <= installments Scenario.loan)%Z) by (cbn; lia).
  destruct (obligation_charged_in_full (Scenario.dayAt 0) [Scenario.cdb]
              Scenario.loan 24 Scenario.cdiAnnual 100 Hd eq_refl eq_refl
              eq_refl Hn) as [_ Hfull].
  apply Hfull.
  - cbn [monthlyAmount totalAmount installments Scenario.loan]. lra.
  - cbn. lia.
Defined.

End MoreProjectionProperties.

(** ** The reference rate and its cache *)

Section RateCacheProperties.

Import CDIService.
Local Open Scope R_scope.

(** X26.  A cached rate less than an hour old is returned as it is, without
    touching the cache, whatever the network would answer; in particular a
    rate just fetched is the answer of every call within the next hour. *)
Theorem cached_rate_served_within_hour :
  (forall cache c lf now net fetchedAt,
     cachedCDI cache = Some c -> lastFetch cache = Some lf ->
     (now - lf < CACHE_DURATION_MS)%Z ->
     fetchCurrentCDI cache now net fetchedAt = (c, cache)) /\
  (forall cache now v rest fetchedAt now' net' fetchedAt',
     cachedCDI cache = None ->
     (now' - fetchedAt < CACHE_DURATION_MS)%Z ->
     let first :=
       fetchCurrentCDI cache now (FetchResponded true (v :: rest)) fetchedAt in
     fst first = v /\
     fetchCurrentCDI (snd first) now' net' fetchedAt' = (v, snd first)).
Proof.
  assert (Hhit : forall cache c lf now net fetchedAt,
     cachedCDI cache = Some c -> lastFetch cache = Some lf ->
     (now - lf < CACHE_DURATION_MS)%Z ->
     fetchCurrentCDI cache now net fetchedAt = (c, cache)).
  { intros cache c lf now net fetchedAt Hc Hlf Hfresh.
    unfold fetchCurrentCDI, getTime. rewrite Hc, Hlf.
    destruct (Z.ltb_spec (now - lf) CACHE_DURATION_MS); [reflexivity | lia]. }
  split; [exact Hhit | ].
  intros cache now v rest fetchedAt now' net' fetchedAt' Hempty Hfresh first.
  assert (Hfirst : first = (v, {| cachedCDI := Some v;
                                  lastFetch := Some fetchedAt |})).
  { subst first. unfold fetchCurrentCDI. rewrite Hempty. reflexivity. }
  rewrite Hfirst. cbn [fst snd]. split; [reflexivity | ].
  apply (Hhit _ v fetchedAt); [reflexivity | reflexivity | exact Hfresh].
Qed.

Lemma cached_rate_served_within_hour_witness :
  fetchCurrentCDI {| cachedCDI := Some 13.65; lastFetch := Some 0%Z |}
    1000%Z FetchRejected 2000%Z
  = (13.65, {| cachedCDI := Some 13.65; lastFetch := Some 0%Z |}).
Proof.
  apply (proj1 cached_rate_served_within_hour _ 13.65 0%Z);
    [reflexivity | reflexivity | reflexivity].
Defined.

(** X27.  A failed request never raises and never serves a stale value: when
    the cache is empty or an hour old or more, and the request is rejected,
    answers with a status that is not ok, or carries no data, the result is
    the fallback 14.90 and the cache is left as it was. *)
Theorem failed_fetch_falls_back (cache : RateCache) (now fetchedAt : Date)
    (net : FetchResult) :
  (cachedCDI cache = None \/ lastFetch cache = None \/
   exists lf, lastFetch cache = Some lf /\
              (CACHE_DURATION_MS <= now - lf)%Z) ->
  (net = FetchRejected \/ (exists vs, net = FetchResponded false vs) \/
   net = FetchResponded true []) ->
  fetchCurrentCDI cache now net fetchedAt = (14.90, cache).
Proof.
  intros Hmiss Hfail. unfold fetchCurrentCDI, getTime.
  assert (Hnone :
    match cachedCDI cache, lastFetch cache with
    | Some c, Some lf =>
        if (now - lf <? CACHE_DURATION_MS)%Z then Some c else None
    | _, _ => None
    end = None).
  { destruct (cachedCDI cache) as [c | ]; [ | reflexivity].
    destruct (lastFetch cache) as [lf | ]; [ | reflexivity].
    destruct Hmiss as [Hc | [Hl | (lf' & Hl & Hold)]];
      try discriminate.
    injection Hl as <-.
    destruct (Z.ltb_spec (now - lf) CACHE_DURATION_MS); [lia | reflexivity]. }
  rewrite Hnone.
  destruct Hfail as [-> | [(vs & ->) | ->]]; reflexivity.
Qed.

Lemma failed_fetch_falls_back_witness :
  fetchCurrentCDI {| cachedCDI := Some 13.65; lastFetch := Some 0%Z |}
    3600000%Z FetchRejected 3600001%Z
  = (14.90, {| cachedCDI := Some 13.65; lastFetch := Some 0%Z |}).
Proof.
  apply failed_fetch_falls_back.
  - right. right. exists 0%Z. split; [reflexivity | ].
    unfold CACHE_DURATION_MS. lia.
  - left. reflexivity.
Defined.

End RateCacheProperties.

(** ** The round trip in binary64 *)

Section Binary64Facts.

Import Binary64.
Local Open Scope R_scope.

Lemma pow2_pos (e : Z) : 0 < pow2 e.
Proof. apply powerRZ_lt. lra. Qed.

Lemma pow2_add (a b : Z) : pow2 (a + b) = pow2 a * pow2 b.
Proof. apply powerRZ_add. lra. Qed.

Lemma pow2_nat (k : Z) : (0 <= k)%Z -> pow2 k = IZR (2 ^ k).
Proof.
  intro Hk. unfold pow2.
  rewrite <- (Z2Nat.id k) by exact Hk.
  rewrite <- pow_powerRZ, pow_IZR. reflexivity.
Qed.

Lemma pow2_ge_1 (k : Z) : (0 <= k)%Z -> 1 <= pow2 k.
Proof.
  intro Hk. rewrite pow2_nat by exact Hk.
  apply IZR_le. apply (Z.pow_pos_nonneg 2 k) in Hk; lia.
Qed.

Lemma pow2_le (a b : Z) : (a <= b)%Z -> pow2 a <= pow2 b.
Proof.
  intro H. replace b with (a + (b - a))%Z by ring.
  rewrite pow2_add.
  pose proof (pow2_pos a). pose proof (pow2_ge_1 (b - a) ltac:(lia)).
  nra.
Qed.

Lemma pow2_minus_60 : pow2 (-60) = / 1152921504606846976.
Proof.
  replace (pow2 (-60)) with (/ pow2 60).
  - rewrite pow2_nat by lia. reflexivity.
  - unfold pow2. rewrite <- powerRZ_neg'. reflexivity.
Qed.

Lemma pow2_minus_52 : pow2 (-52) = / 4503599627370496.
Proof.
  replace (pow2 (-52)) with (/ pow2 52).
  - rewrite pow2_nat by lia. reflexivity.
  - unfold pow2. rewrite <- powerRZ_neg'. reflexivity.
Qed.

Lemma Rabs_le_bounds (x a : R) : Rabs x <= a -> - a <= x <= a.
Proof.
  unfold Rabs. destruct (Rcase_abs x); lra.
Qed.

(** A double of magnitude at least [2^p] lies on the grid of step
    [2^(p-52)]. *)
Lemma double_on_grid (g : R) (p : Z) :
  is_double g -> pow2 p <= Rabs g ->
  exists N : Z, g = IZR N * pow2 (p - 52).
Proof.
  intros (m & e & Hg & Hm & He) Hp.
  assert (Hexp : (p - 52 <= e)%Z).
  { destruct (Z_le_gt_dec (p - 52) e) as [Hle | Hgt]; [exact Hle | ].
    exfalso.
    assert (Hbound : Rabs g < pow2 p).
    { rewrite Hg, Rabs_mult, (Rabs_pos_eq (pow2 e))
        by (left; apply pow2_pos).
      rewrite <- abs_IZR.
      assert (IZR (Z.abs m) <= IZR (2 ^ 53 - 1)) by (apply IZR_le; lia).
      assert (pow2 e <= pow2 (p - 53)) by (apply pow2_le; lia).
      assert (Hsplit : pow2 p = pow2 53 * pow2 (p - 53)).
      { rewrite <- pow2_add. f_equal. ring. }
      rewrite Hsplit, (pow2_nat 53) by lia.
      pose proof (pow2_pos e). pose proof (pow2_pos (p - 53)).
      assert (0 <= IZR (Z.abs m)) by (apply IZR_le; lia).
      assert (IZR (2 ^ 53 - 1) < IZR (2 ^ 53)) by (apply IZR_lt; lia).
      apply Rle_lt_trans with (IZR (2 ^ 53 - 1) * pow2 (p - 53)).
      - apply Rmult_le_compat; lra.
      - apply Rmult_lt_compat_r; lra. }
    lra. }
  exists (m * 2 ^ (e - (p - 52)))%Z.
  rewrite Hg, mult_IZR, <- pow2_nat by lia.
  rewrite Rmult_assoc, <- pow2_add. do 2 f_equal. ring.
Qed.

Lemma is_double_0 : is_double 0.
Proof. exists 0%Z, 0%Z. split; [ring | split; lia]. Qed.

Lemma is_double_1 : is_double 1.
Proof.
  exists 1%Z, 0%Z. split; [ | split; lia].
  unfold pow2. rewrite powerRZ_O. ring.
Qed.

Lemma is_double_pow2_minus_60 : is_double (pow2 (-60)).
Proof. exists 1%Z, (-60)%Z. split; [ring | split; lia]. Qed.

Lemma is_double_tiny_rate : is_double tiny_rate.
Proof.
  exists 25%Z, (-58)%Z. split; [ | split; lia].
  unfold tiny_rate.
  replace (-58)%Z with (2 + -60)%Z by ring.
  rewrite pow2_add, (pow2_nat 2) by lia.
  change (IZR (2 ^ 2)) with 4. ring.
Qed.

(** A real that is a double rounds to itself, and to nothing else. *)
Lemma rounds_to_exact (x f : R) : is_double x -> (rounds_to x f <-> f = x).
Proof.
  intro Hx. split.
  - intros [_ Hnear]. specialize (Hnear x Hx).
    replace (x - x) with 0 in Hnear by ring. rewrite Rabs_R0 in Hnear.
    pose proof (Rabs_pos (f - x)).
    assert (Hzero : Rabs (f - x) = 0) by lra.
    destruct (Req_dec (f - x) 0) as [H0 | Hne]; [lra | ].
    apply Rabs_no_R0 in Hne. contradiction.
  - intros ->. split; [exact Hx | ].
    intros g _. replace (x - x) with 0 by ring. rewrite Rabs_R0.
    apply Rabs_pos.
Qed.

(** Between 1 and [1 + 2^-59] the only double is 1. *)
Lemma only_double_near_1 (g : R) :
  is_double g -> 1 <= g <= 1 + 2 * pow2 (-60) -> g = 1.
Proof.
  intros Hg [Hlo Hhi].
  destruct (double_on_grid g 0 Hg) as [N HN].
  { unfold pow2. rewrite powerRZ_O, Rabs_pos_eq; lra. }
  change (0 - 52)%Z with (-52)%Z in HN.
  rewrite pow2_minus_52 in HN. rewrite pow2_minus_60 in Hhi.
  assert (HN1 : IZR 4503599627370496 <= IZR N) by (rewrite HN in Hlo; lra).
  assert (HN2 : IZR N < IZR 4503599627370497) by (rewrite HN in Hhi; lra).
  apply le_IZR in HN1. apply lt_IZR in HN2.
  assert (N = 4503599627370496%Z) by lia. subst N. rewrite HN. field.
Qed.

(** [1 + 2^-60] rounds to 1, and to nothing else. *)
Lemma rounds_to_one (f : R) : rounds_to (1 + pow2 (-60)) f <-> f = 1.
Proof.
  pose proof (pow2_pos (-60)) as Hpos.
  split.
  - intros [Hf Hnear]. specialize (Hnear 1 is_double_1).
    replace (1 - (1 + pow2 (-60))) with (- pow2 (-60)) in Hnear by ring.
    rewrite Rabs_Ropp, (Rabs_pos_eq (pow2 (-60))) in Hnear by lra.
    apply Rabs_le_bounds in Hnear.
    apply only_double_near_1; [exact Hf | lra].
  - intros ->. split; [exact is_double_1 | ].
    intros g Hg.
    replace (1 - (1 + pow2 (-60))) with (- pow2 (-60)) by ring.
    rewrite Rabs_Ropp, (Rabs_pos_eq (pow2 (-60))) by lra.
    destruct (Rle_lt_dec (pow2 (-60)) (Rabs (g - (1 + pow2 (-60)))))
      as [Hfar | Hclose]; [exact Hfar | exfalso].
    apply Rabs_def2 in Hclose.
    assert (g = 1) by (apply only_double_near_1; [exact Hg | lra]).
    lra.
Qed.

(** [1 / 252] has a nearest double: [4575085335741456 * 2^-60]. *)
Lemma rounds_exponent :
  rounds_to (1 / BUSINESS_DAYS_PER_YEAR)
    (IZR 4575085335741456 * pow2 (-60)).
Proof.
  unfold BUSINESS_DAYS_PER_YEAR. split.
  - exists 4575085335741456%Z, (-60)%Z. split; [reflexivity | split; lia].
  - intros g Hg.
    destruct (Rle_lt_dec
                (Rabs (IZR 4575085335741456 * pow2 (-60) - 1 / 252))
                (Rabs (g - 1 / 252))) as [Hfar | Hclose];
      [exact Hfar | exfalso].
    rewrite pow2_minus_60 in Hclose.
    rewrite (Rabs_left (IZR 4575085335741456 * / 1152921504606846976
                        - 1 / 252)) in Hclose by lra.
    apply Rabs_def2 in Hclose.
    destruct (double_on_grid g (-8) Hg) as [N HN].
    { replace (pow2 (-8)) with (/ 256).
      - rewrite Rabs_pos_eq; lra.
      - replace (pow2 (-8)) with (/ pow2 8).
        + rewrite pow2_nat by lia. reflexivity.
        + unfold pow2. rewrite <- powerRZ_neg'. reflexivity. }
    change (-8 - 52)%Z with (-60)%Z in HN. rewrite pow2_minus_60 in HN.
    assert (HN1 : IZR 4575085335741456 < IZR N)
      by (rewrite HN in Hclose; lra).
    assert (HN2 : IZR N < IZR 4575085335741457)
      by (rewrite HN in Hclose; lra).
    apply lt_IZR in HN1. apply lt_IZR in HN2. lia.
Qed.

(** Any power of 1 is 1. *)
Lemma pow_base_one (y : R) : JSMath.pow 1 y = 1.
Proof.
  rewrite pow_positive_base by lra.
  unfold Rpower. rewrite ln_1, Rmult_0_r. apply exp_0.
Qed.

(** Every run of [annualToDaily] on the tiny rate returns 0. *)
Lemma annualToDaily_tiny (d : R) :
  Binary64.annualToDaily tiny_rate d <-> d = 0.
Proof.
  assert (Hq : tiny_rate / 100 = pow2 (-60))
    by (unfold tiny_rate; field).
  split.
  - intros (a & b & y & pw & dr & Ha & Hb & _ & Hpw & Hdr & Hd).
    rewrite Hq in Ha.
    apply (rounds_to_exact _ _ is_double_pow2_minus_60) in Ha. subst a.
    apply rounds_to_one in Hb. subst b.
    rewrite pow_base_one in Hpw.
    apply (rounds_to_exact _ _ is_double_1) in Hpw. subst pw.
    replace (1 - 1) with 0 in Hdr by ring.
    apply (rounds_to_exact _ _ is_double_0) in Hdr. subst dr.
    replace (0 * 100) with 0 in Hd by ring.
    apply (rounds_to_exact _ _ is_double_0) in Hd. exact Hd.
  - intros ->.
    exists (pow2 (-60)), 1, (IZR 4575085335741456 * pow2 (-60)), 1, 0.
    rewrite Hq.
    split; [apply rounds_to_exact;
            [exact is_double_pow2_minus_60 | reflexivity] | ].
    split; [apply rounds_to_one; reflexivity | ].
    split; [exact rounds_exponent | ].
    rewrite pow_base_one.
    split; [apply rounds_to_exact; [exact is_double_1 | reflexivity] | ].
    replace (1 - 1) with 0 by ring.
    split; [apply rounds_to_exact; [exact is_double_0 | reflexivity] | ].
    replace (0 * 100) with 0 by ring.
    apply rounds_to_exact; [exact is_double_0 | reflexivity].
Qed.

(** Every run of [dailyToAnnual] on 0 returns 0. *)
Lemma dailyToAnnual_zero (res : R) :
  Binary64.dailyToAnnual 0 res <-> res = 0.
Proof.
  split.
  - intros (dr & b & pw & ar & Hdr & Hb & Hpw & Har & Hres).
    replace (0 / 100) with 0 in Hdr by field.
    apply (rounds_to_exact _ _ is_double_0) in Hdr. subst dr.
    replace (1 + 0) with 1 in Hb by ring.
    apply (rounds_to_exact _ _ is_double_1) in Hb. subst b.
    rewrite pow_base_one in Hpw.
    apply (rounds_to_exact _ _ is_double_1) in Hpw. subst pw.
    replace (1 - 1) with 0 in Har by ring.
    apply (rounds_to_exact _ _ is_double_0) in Har. subst ar.
    replace (0 * 100) with 0 in Hres by ring.
    apply (rounds_to_exact _ _ is_double_0) in Hres. exact Hres.
  - intros ->. exists 0, 1, 1, 0.
    replace (0 / 100) with 0 by field.
    split; [apply rounds_to_exact; [exact is_double_0 | reflexivity] | ].
    replace (1 + 0) with 1 by ring.
    split; [apply rounds_to_exact; [exact is_double_1 | reflexivity] | ].
    rewrite pow_base_one.
    split; [apply rounds_to_exact; [exact is_double_1 | reflexivity] | ].
    replace (1 - 1) with 0 by ring.
    split; [apply rounds_to_exact; [exact is_double_0 | reflexivity] | ].
    replace (0 * 100) with 0 by ring.
    apply rounds_to_exact; [exact is_double_0 | reflexivity].
Qed.

(** Counterexample to C8 as stated: the rate [100 * 2^-60] percent is a
    double inside (-50, 100); in binary64 the round trip runs, every run
    returns 0, and 0 is not within the relative tolerance 1e-9 of the
    rate. *)
Lemma round_trip_loses_tiny_rate :
  is_double tiny_rate /\ -50 < tiny_rate < 100 /\
  (exists d res,
     Binary64.annualToDaily tiny_rate d /\ Binary64.dailyToAnnual d res) /\
  (forall d res,
     Binary64.annualToDaily tiny_rate d -> Binary64.dailyToAnnual d res ->
     res = 0 /\ ~ within_tolerance 1e-9 tiny_rate res).
Proof.
  assert (Hrange : 0 < tiny_rate < 100).
  { unfold tiny_rate. rewrite pow2_minus_60. lra. }
  split; [exact is_double_tiny_rate | ].
  split; [lra | ].
  split.
  - exists 0, 0. split;
      [apply annualToDaily_tiny | apply dailyToAnnual_zero]; reflexivity.
  - intros d res Hd Hres.
    apply annualToDaily_tiny in Hd. subst d.
    apply dailyToAnnual_zero in Hres. subst res.
    split; [reflexivity | ].
    unfold within_tolerance.
    replace (0 - tiny_rate) with (- tiny_rate) by ring.
    rewrite Rabs_Ropp, Rabs_pos_eq by lra.
    lra.
Qed.

End Binary64Facts.

(** ** The monthly return against the net worth *)

Section MonthlyReturnDefect.

Import ExpenseManager FinancialEngine Projection.
Local Open Scope R_scope.

(** With the sample loan as only entry, the wealth at month [i] is what has
    been charged so far, negated. *)
Lemma loan_only_wealth (i : nat) :
  (i < 12)%nat ->
  wealthAt (Scenario.dayAt 0) [] [Scenario.loan] Scenario.cdiAnnual 0
    (Z.of_nat i)
  = - (100 * (INR i + 1)).
Proof.
  intro Hi. unfold wealthAt, investmentsValueAt. cbn [fold_left].
  rewrite accumulatedSavingsAt_no_savings.
  rewrite cumulativeExpenses_single;
    [ | vm_compute; discriminate | reflexivity | reflexivity
      | reflexivity | cbn; lia].
  change (monthlyAmount Scenario.loan) with 100.
  change (installments Scenario.loan) with 12%Z.
  rewrite Z.min_l by lia.
  rewrite Z2Nat.id, plus_IZR, <- INR_IZR_INZ by lia.
  ring.
Qed.

(** C1.  The code does not compute the like-for-like difference the claim
    states.  Input: no investments, the sample loan (1200 in 12 installments
    from the first month, unpaid), no monthly savings, two months ahead.
    The net worth falls by 100 every month (-100, -200, -300), so
    [max 0 (netWorth_i - netWorth_(i-1) + 0 * monthlyRate)] is 0 at every
    index; the code reports monthly returns of 0, 100 and 200, because it
    subtracts the previous net worth from the value of the investments
    alone. *)
Theorem monthlyReturn_rises_while_netWorth_falls :
  let rate := CDIService.annualToMonthly Scenario.cdiAnnual / 100 in
  exists p0 p1 p2 : ProjectionResult,
    projectWealth (Scenario.dayAt 0) [] [Scenario.loan] 2
      Scenario.cdiAnnual 0 = [p0; p1; p2] /\
    netWorth p0 = -100 /\ netWorth p1 = -200 /\ netWorth p2 = -300 /\
    monthlyReturn p0 = 0 /\ monthlyReturn p1 = 100 /\
    monthlyReturn p2 = 200 /\
    Rmax 0 (netWorth p1 - netWorth p0 + 0 * rate) = 0 /\
    Rmax 0 (netWorth p2 - netWorth p1 + 0 * rate) = 0.
Proof.
  intro rate.
  exists (pointAt (Scenario.dayAt 0) [] [Scenario.loan]
            Scenario.cdiAnnual 0 0).
  exists (pointAt (Scenario.dayAt 0) [] [Scenario.loan]
            Scenario.cdiAnnual 0 1).
  exists (pointAt (Scenario.dayAt 0) [] [Scenario.loan]
            Scenario.cdiAnnual 0 2).
  split; [rewrite projectWealth_points; reflexivity | ].
  pose proof (loan_only_wealth 0 ltac:(lia)) as Hw0.
  pose proof (loan_only_wealth 1 ltac:(lia)) as Hw1.
  pose proof (loan_only_wealth 2 ltac:(lia)) as Hw2.
  cbn [Z.of_nat Pos.of_succ_nat Pos.succ INR] in Hw0, Hw1, Hw2.
  unfold pointAt. cbn [netWorth monthlyReturn].
  change (0 <? 0)%Z with false. change (0 <? 1)%Z with true.
  change (0 <? 2)%Z with true. cbv iota.
  change (1 - 1)%Z with 0%Z. change (2 - 1)%Z with 1%Z.
  rewrite Hw0, Hw1, Hw2.
  unfold investmentsValueAt. cbn [fold_left].
  split; [lra | ]. split; [lra | ]. split; [lra | ].
  split; [apply Rmax_left; lra | ].
  split; [rewrite Rmax_right by lra; lra | ].
  split; [rewrite Rmax_right by lra; lra | ].
  split; apply Rmax_left; lra.
Qed.

End MonthlyReturnDefect.
